(** * Safe cart-pole task ([custom_envs/safeCartpole.py])

    A shallow embedding of the [Balance] task of the safe cart-pole
    environment: the unsafe-region configuration, the runtime unsafe
    classifier with its angle wrapping, the construction of the
    Hamilton-Jacobi value function store, the rejection-sampling episode
    initialisation, the observation assembly and the reward.

    Numbers.  The program computes with binary64 floats; the embedding reads
    them as real numbers ([R]), so [np.pi] is [PI], [%] is the floored
    remainder and [np.exp] is [exp].  Rounding is outside that model.  Where
    rounding decides a question, at the ends of the wrapped-angle interval,
    line 226 is also given as it is computed, on binary64 floats (module
    [binary64]).

    Effects.  Python exceptions, the random generator, printing and the
    mutation of the physics object are explicit: functions return an
    [outcome], thread the [RandomState] and the physics record, and collect
    what they print in a list of [event]s. *)

From Stdlib Require Import Reals Lra Lia ZArith List String.
From Stdlib Require SpecFloat.
From stdpp Require Import base option list gmap strings.

Open Scope R_scope.

(** ** Outcomes of Python code *)

Inductive exn : Type :=
| IndexError
| KeyError
| ValueError
| AxisError
| NameError
| OSError
| FloatNaN.

(** [Ret] is a normal return, [Exc] a raised exception, [Fuel] the loop
    model running out of iterations before the loop condition fails. *)
Inductive outcome (A : Type) : Type :=
| Ret (a : A)
| Exc (e : exn)
| Fuel.

Arguments Ret {A} a.
Arguments Exc {A} e.
Arguments Fuel {A}.

#[global] Instance outcome_ret : MRet outcome := fun A a => Ret a.

#[global] Instance outcome_bind : MBind outcome := fun A B k m =>
  match m with
  | Ret a => k a
  | Exc e => Exc e
  | Fuel => Fuel
  end.

(** Indexing a sequence that is too short raises [IndexError]. *)
Definition getitem {A : Type} (l : list A) (i : nat) : outcome A :=
  match l !! i with
  | Some a => Ret a
  | None => Exc IndexError
  end.

(** Item assignment [l[i] = v]. *)
Definition setitem {A : Type} (l : list A) (i : nat) (v : A) : outcome (list A) :=
  if decide (i < length l)%nat then Ret (<[i := v]> l) else Exc IndexError.

(** [l[-1]]. *)
Definition getitem_last {A : Type} (l : list A) : outcome A :=
  match last l with
  | Some a => Ret a
  | None => Exc IndexError
  end.

(** Comparisons of numbers are decided; the instances let [decide] and
    [bool_decide] stand for the program's [<=], [<] and [==]. *)
#[global] Instance Rle_decision (a b : R) : Decision (a <= b) := Rle_dec a b.
#[global] Instance Rlt_decision (a b : R) : Decision (a < b) := Rlt_dec a b.
#[global] Instance Rge_decision (a b : R) : Decision (a >= b) := Rge_dec a b.
#[global] Instance Rgt_decision (a b : R) : Decision (a > b) := Rgt_dec a b.
#[global] Instance Req_decision : EqDecision R := Req_dec_T.
#[global] Instance nat_gt_decision (a b : nat) : Decision (a > b)%nat :=
  lt_dec b a.

(** ** Floored remainder and angle wrapping *)

(** [a % b] for a positive divisor, read in exact arithmetic:
    [a - b * floor (a / b)].  The binary64 operation, which rounds, is
    [binary64.rem] below. *)
Definition py_mod (a b : R) : R := a - b * IZR (Zfloor (a / b)).

(** [(q + np.pi) % (2 * np.pi) - np.pi], line 226, in exact arithmetic. *)
Definition wrap_angle (q : R) : R := py_mod (q + PI) (2 * PI) - PI.

(** ** Line 226 in binary64

    The program computes the wrapped angle in IEEE double precision.  The
    operations are the correctly rounded ones of [SpecFloat] at precision
    53; [fmod] is C's exact truncated remainder, and [rem] is the [%] of
    Python and NumPy floats built on it. *)

Module binary64.

Abbreviation float := SpecFloat.spec_float.

Definition prec : Z := 53.
Definition emax : Z := 1024.

Definition add : float -> float -> float := SpecFloat.SFadd prec emax.
Definition sub : float -> float -> float := SpecFloat.SFsub prec emax.
Definition mul : float -> float -> float := SpecFloat.SFmul prec emax.
Definition div : float -> float -> float := SpecFloat.SFdiv prec emax.
Definition neg : float -> float := SpecFloat.SFopp.
Definition ltb : float -> float -> bool := SpecFloat.SFltb.
Definition leb : float -> float -> bool := SpecFloat.SFleb.

(** [np.nextafter(x, -np.inf)]. *)
Definition nextdown : float -> float := SpecFloat.SFpred prec emax.

(** The float of a small integer. *)
Definition of_Z (n : Z) : float :=
  SpecFloat.binary_normalize prec emax n 0 false.

Definition zero : float := SpecFloat.S754_zero false.

(** [np.pi], 0x1.921fb54442d18p+1. *)
Definition pi : float := SpecFloat.S754_finite false 7074237752028440 (-51).

(** C's [fmod]: the exact remainder of the truncated division, with the sign
    of the dividend. *)
Definition fmod (x y : float) : float :=
  match x, y with
  | SpecFloat.S754_nan, _ | _, SpecFloat.S754_nan => SpecFloat.S754_nan
  | SpecFloat.S754_infinity _, _ | _, SpecFloat.S754_zero _ => SpecFloat.S754_nan
  | SpecFloat.S754_zero _, _ | _, SpecFloat.S754_infinity _ => x
  | SpecFloat.S754_finite sx mx ex, SpecFloat.S754_finite _ my ey =>
      let e := Z.min ex ey in
      let r := Z.rem (Z.pos mx * 2 ^ (ex - e)) (Z.pos my * 2 ^ (ey - e)) in
      SpecFloat.binary_normalize prec emax (SpecFloat.cond_Zopp sx r) e sx
  end%Z.

(** [a % b]: [fmod], moved by one divisor when its sign differs from the
    divisor's; a zero remainder takes the sign of the divisor. *)
Definition rem (a b : float) : float :=
  let r := fmod a b in
  match r with
  | SpecFloat.S754_nan => SpecFloat.S754_nan
  | SpecFloat.S754_zero _ => SpecFloat.S754_zero (ltb b zero)
  | _ => if xorb (ltb b zero) (ltb r zero) then add r b else r
  end.

(** [(q + np.pi) % (2 * np.pi) - np.pi], line 226. *)
Definition wrap_angle (q : float) : float :=
  sub (rem (add q pi) (mul (of_Z 2) pi)) pi.

(** [np.pi / 8], the upper bound of the configured unsafe band (line 249),
    and [np.pi / 8 + 2 * np.pi]. *)
Definition eighth_pi : float := div pi (of_Z 8).
Definition eighth_pi_turned : float := add eighth_pi (mul (of_Z 2) pi).

End binary64.

(** ** Data model *)

(** [np.array([x, theta, xdot, thetadot])]. *)
Record State : Type := mkState {
  st_x : R;
  st_theta : R;
  st_xdot : R;
  st_thetadot : R
}.

(** A row of [data.xmat]: the orientation matrix of one body, with the
    column names of the named view. *)
Record Mat3 : Type := mkMat3 {
  xx : R; xy : R; xz : R;
  yx : R; yy : R; yz : R;
  zx : R; zy : R; zz : R
}.

(** The part of [mujoco.Physics] the task reads and writes.  [qpos] and
    [qvel] are the generalised positions and velocities, [ctrl] the control
    vector, [xmat] one orientation per body (world, cart, poles) and
    [geom_rgba] the colour table of the named geoms. *)
Record Physics : Type := mkPhysics {
  qpos : list R;
  qvel : list R;
  ctrl : list R;
  xmat : list Mat3;
  geom_rgba : gmap string (list R)
}.

(** [physics.model.nv]: the number of degrees of freedom. *)
Definition model_nv (physics : Physics) : nat := length (qvel physics).

(** Modelled from the spec: the joint table of [safeCartpole.xml], which is
    not among the sources.  The spec's State orders the cart position before
    the pole angle, and [is_unsafe] reads them back at [qpos[0]] and
    [qpos[1]]; so ['slider'] names entry 0 and ['hinge_1'] entry 1. *)
Definition joint_qposadr (name : string) : outcome nat :=
  if decide (name = "slider") then Ret 0%nat
  else if decide (name = "hinge_1") then Ret 1%nat
  else Exc KeyError.

(** [physics.named.data.qpos[name] = v]. *)
Definition set_named_qpos (physics : Physics) (name : string) (v : R)
  : outcome Physics :=
  i ← joint_qposadr name;
  q ← setitem (qpos physics) i v;
  Ret (mkPhysics q (qvel physics) (ctrl physics) (xmat physics) (geom_rgba physics)).

(** [physics.named.data.qvel[i] = v]. *)
Definition set_qvel (physics : Physics) (i : nat) (v : R) : outcome Physics :=
  q ← setitem (qvel physics) i v;
  Ret (mkPhysics (qpos physics) q (ctrl physics) (xmat physics) (geom_rgba physics)).

(** [physics.named.model.geom_rgba[name] = rgba]; an unknown geom name
    raises [KeyError]. *)
Definition set_geom_rgba (physics : Physics) (name : string) (rgba : list R)
  : outcome Physics :=
  match geom_rgba physics !! name with
  | Some _ =>
      Ret (mkPhysics (qpos physics) (qvel physics) (ctrl physics) (xmat physics)
             (<[name := rgba]> (geom_rgba physics)))
  | None => Exc KeyError
  end.

(** *** Methods of [Physics] (lines 147-165) *)

Definition cart_position (physics : Physics) : outcome R :=
  i ← joint_qposadr "slider";
  getitem (qpos physics) i.

Definition angular_vel (physics : Physics) : list R := drop 1 (qvel physics).

Definition pole_angle_cosine (physics : Physics) : list R :=
  map zz (drop 2 (xmat physics)).

Definition bounded_position (physics : Physics) : outcome (list R) :=
  c ← cart_position physics;
  Ret (c :: concat (map (fun m => [zz m; xz m]) (drop 2 (xmat physics)))).

(** [physics.velocity()] and [physics.control()] of [mujoco.Physics]. *)
Definition velocity (physics : Physics) : list R := qvel physics.
Definition control (physics : Physics) : list R := ctrl physics.

(** ** [dm_control.utils.rewards] *)

Module rewards.

(** The two sigmoids the task selects. *)
Inductive sigmoid : Type := gaussian | quadratic.

Definition _DEFAULT_VALUE_AT_MARGIN : R := 0.1.

(** [_sigmoids]: the admissible range of [value_at_1] depends on the
    sigmoid; outside it the function raises [ValueError]. *)
Definition sigmoid_args (value_at_1 : R) (s : sigmoid) : outcome unit :=
  match s with
  | quadratic =>
      if decide (0 <= value_at_1 < 1) then Ret tt else Exc ValueError
  | gaussian =>
      if decide (0 < value_at_1 < 1) then Ret tt else Exc ValueError
  end.

Definition _sigmoids (x value_at_1 : R) (s : sigmoid) : R :=
  match s with
  | gaussian =>
      let scale := sqrt (-2 * ln value_at_1) in
      exp (-0.5 * (x * scale) ^ 2)
  | quadratic =>
      let scale := sqrt (1 - value_at_1) in
      let scaled_x := x * scale in
      if decide (Rabs scaled_x < 1) then 1 - scaled_x ^ 2 else 0
  end.

(** The argument checks of [tolerance], made once for the whole array. *)
Definition tolerance_args (lower upper margin value_at_margin : R)
    (s : sigmoid) : outcome unit :=
  if decide (lower > upper) then Exc ValueError
  else if decide (margin < 0) then Exc ValueError
  else if decide (margin = 0) then Ret tt
  else sigmoid_args value_at_margin s.

(** The value of [tolerance] at one entry. *)
Definition tolerance_at (lower upper margin value_at_margin : R)
    (s : sigmoid) (x : R) : R :=
  let in_bounds := andb (bool_decide (lower <= x)) (bool_decide (x <= upper)) in
  if decide (margin = 0) then (if in_bounds then 1 else 0)
  else
    let d := (if decide (x < lower) then lower - x else x - upper) / margin in
    if in_bounds then 1 else _sigmoids d value_at_margin s.

(** [tolerance] of an array. *)
Definition tolerance (x : list R) (lower upper margin : R) (s : sigmoid)
    (value_at_margin : R) : outcome (list R) :=
  _ ← tolerance_args lower upper margin value_at_margin s;
  Ret (map (tolerance_at lower upper margin value_at_margin s) x).

(** [tolerance] of a scalar. *)
Definition tolerance_scalar (x : R) (lower upper margin : R) (s : sigmoid)
    (value_at_margin : R) : outcome R :=
  _ ← tolerance_args lower upper margin value_at_margin s;
  Ret (tolerance_at lower upper margin value_at_margin s x).

End rewards.

(** ** The reachability collaborators ([custom_envs/utils]) *)

Module utils.

(** The keyword arguments [setup_hj_reachability] passes to both
    [CartPoleDeepreach] and [CartPoleHJR] (lines 282-291). *)
Record kwargs : Type := mkKwargs {
  gravity : R;
  umax : R;
  length : R;
  mass_cart : R;
  mass_pole : R;
  unsafe_x_min : R;
  unsafe_x_max : R;
  unsafe_vel_max : R;
  unsafe_theta_min : R;
  unsafe_theta_max : R;
  x_dist : R;
  theta_dist : R;
  vel_dist : R;
  thetadot_dist : R;
  tMin : R;
  tMax : R;
  unsafe_theta_in_range : bool
}.

(** The two objects are known by their constructor arguments. *)
Record CartPoleDeepreach : Type := mkDeepreach { dr_kwargs : kwargs }.

Record CartPoleHJR : Type := mkHJR {
  hjr_torch_dynamics : CartPoleDeepreach;
  hjr_kwargs : kwargs
}.

(** Modelled from the spec: [CartPoleDeepreach.is_unsafe], whose class is
    imported from [custom_envs/utils] and is not among the sources.  Spec
    4.3: unsafe iff position out of [x_min, x_max] OR |xdot| > vel_max OR
    |thetadot| > vel_max OR (angle condition enabled AND angle-in-range
    matches the [theta_in_range] polarity); spec 3: the angle condition is
    disabled when [theta_min == theta_max]. *)
Definition angle_condition_enabled (self : CartPoleDeepreach) : bool :=
  negb (bool_decide (unsafe_theta_min (dr_kwargs self)
                     = unsafe_theta_max (dr_kwargs self))).

Definition angle_in_range (self : CartPoleDeepreach) (theta : R) : bool :=
  bool_decide (unsafe_theta_min (dr_kwargs self) <= theta)
  && bool_decide (theta <= unsafe_theta_max (dr_kwargs self)).

Definition is_unsafe (self : CartPoleDeepreach) (state : State) : bool :=
  let k := dr_kwargs self in
  bool_decide (st_x state < unsafe_x_min k)
  || bool_decide (unsafe_x_max k < st_x state)
  || bool_decide (Rabs (st_xdot state) > unsafe_vel_max k)
  || bool_decide (Rabs (st_thetadot state) > unsafe_vel_max k)
  || (angle_condition_enabled self
      && Bool.eqb (angle_in_range self (st_theta state))
                  (unsafe_theta_in_range k)).

End utils.

(** ** The grid and the value function store ([hj_reachability]) *)

(** [hj.sets.Box(lo, hi)]. *)
Record Box : Type := mkBox { box_lo : State; box_hi : State }.

(** [hj.Grid.from_lattice_parameters_and_boundary_conditions(domain, shape,
    periodic_dims)]. *)
Record Grid : Type := mkGrid {
  grid_domain : Box;
  grid_shape : list nat;
  grid_periodic_dims : list nat
}.

(** The array of value snapshots, time axis first: one flat block of reals
    per time step, all of the lattice shape [lattice].  The array has rank
    [1 + length lattice]. *)
Record ValueArray : Type := mkValues {
  lattice : list nat;
  snapshots : list (list R)
}.

(** [array.shape]. *)
Definition values_shape (a : ValueArray) : list nat :=
  List.length (snapshots a) :: lattice a.

(** [jnp.linspace(a, b, n)]. *)
Definition linspace (a b : R) (n : nat) : list R :=
  map (fun i => a + INR i * ((b - a) / INR (n - 1))) (seq 0 n).

Definition Rsum (l : list R) : R := foldr Rplus 0 l.
Definition Rprod (l : list R) : R := foldr Rmult 1 l.

(** [jnp.diff(all_values, axis=0)]: differences of consecutive snapshots. *)
Definition diff_axis0 (snaps : list (list R)) : list (list R) :=
  zip_with (zip_with Rminus) (drop 1 snaps) snaps.

(** The mean of one time step over the first four lattice axes: one entry
    per index of the remaining axes (row-major layout).  An entry is the sum
    of the [n] values it averages divided by [n]; when one of the four axes
    is empty there is nothing to average and the entry is nan ([None]). *)
Definition block_mean (lat : list nat) (block : list R) : list (option R) :=
  let n := foldr Nat.mul 1%nat (take 4 lat) in
  let rest := foldr Nat.mul 1%nat (drop 4 lat) in
  map (fun r =>
         if decide (n = 0%nat) then None
         else Some (Rsum (map (fun i => nth (i * rest + r) block 0) (seq 0 n))
                    / INR n))
      (seq 0 rest).

(** [array.mean(axis=(1,2,3,4))] on an array whose time steps are [blocks]:
    an array with fewer than four lattice axes has no axis 4. *)
Definition mean_axes_1_4 (lat : list nat) (blocks : list (list R))
  : outcome (list (list (option R))) :=
  if decide (4 <= List.length lat)%nat then Ret (map (block_mean lat) blocks)
  else Exc AxisError.

(** Unary minus on an array that may hold nan. *)
Definition negative (l : list (option R)) : list (option R) :=
  map (option_map Ropp) l.

(** What the task prints, and the candidates it evaluates. *)
Inductive event : Type :=
| Candidate (s : State) (v : R)
| PrintMaxCounterExceeded (s : State)
| PrintStartStateValue (v : R)
| PrintNewlines (n : nat)
| PrintFinalDiff (d : list (option R)).

(** Attributes assigned by [set_unsafe_region]. *)
Record UnsafeRegion : Type := mkRegion {
  unsafe_x_min : R;
  unsafe_x_max : R;
  unsafe_vel_max : R;
  unsafe_theta_min : R;
  unsafe_theta_max : R;
  unsafe_theta_in_range : bool;
  use_unsafe_theta : bool
}.

(** [Balance.set_unsafe_region] (lines 202-219). *)
Definition set_unsafe_region (x_min x_max vel_max theta_min theta_max : R)
    (theta_in_range : bool) : UnsafeRegion :=
  let use := true in
  let use := if decide (theta_min = theta_max) then false else use in
  mkRegion x_min x_max vel_max theta_min theta_max theta_in_range use.

(** The attributes of a constructed [Balance] task. *)
Record Balance : Type := mkBalance {
  _sparse : bool;
  _swing_up : bool;
  region : UnsafeRegion;
  cartpole_deepreach : utils.CartPoleDeepreach;
  cartpole_hjr : utils.CartPoleHJR;
  hjr_grid : Grid;
  hjr_all_values : ValueArray;
  hjr_times : list R;
  hjr_target_values : list R
}.

Definition _CART_RANGE : R * R := (-0.25, 0.25).
Definition _ANGLE_COSINE_RANGE : R * R := (0.995, 1).

(** ** The task *)

Section Task.

(** [numpy.random.RandomState]: each draw returns a number and the next
    generator state.  [uniform_n lo hi n] is [uniform(lo, hi, n)], an array
    of [n] draws. *)
Variable RandomState : Type.
Variable randn : RandomState -> R * RandomState.
Variable uniform : R -> R -> RandomState -> R * RandomState.
Variable uniform_n : R -> R -> nat -> RandomState -> list R * RandomState.

(** [hj.Grid.interpolate(values, state)]. *)
Variable interpolate : Grid -> list R -> State -> R.

(** [hj.solve(solver_settings, dynamics, grid, times, initial_values)] and
    the boundary function of the dynamics evaluated on the grid states. *)
Variable hj_solve : utils.CartPoleHJR -> Grid -> list R -> list R -> ValueArray.
Variable boundary_fn : utils.CartPoleHJR -> Grid -> list R.

(** [CartPoleDeepreach.is_unsafe]. *)
Variable deepreach_is_unsafe : utils.CartPoleDeepreach -> State -> bool.

(** [base.Task.initialize_episode], the hook of the parent class. *)
Variable base_initialize_episode : Physics -> Physics.

(** *** [Balance.is_unsafe] (lines 221-230) *)

Definition is_unsafe (self : Balance) (physics : Physics) : outcome bool :=
  x ← getitem (qpos physics) 0;
  q ← getitem (qpos physics) 1;
  let theta := wrap_angle q in
  xdot ← getitem (qvel physics) 0;
  thetadot ← getitem (qvel physics) 1;
  Ret (deepreach_is_unsafe (cartpole_deepreach self)
         (mkState x theta xdot thetadot)).

(** *** [Balance.setup_hj_reachability] (lines 232-335)

    [cache] is the content of [safeCartpole_hjr_values.npy] when the file
    exists.  The result carries the task attributes, the file content
    afterwards and what was printed. *)

Definition re_compute_hjr : bool := false.

Definition setup_hj_reachability (sparse swing_up : bool)
    (cache : option ValueArray)
  : outcome (Balance * option ValueArray * list event) :=
  (* Dynamics attributes *)
  let gravity := -9.8 in
  let umax := 10 in
  let length := 0.5 in
  let mass_cart := 1.0 in
  let mass_pole := 0.1 in
  (* Safe region attributes *)
  let unsafe_x_min := -1.5 in
  let unsafe_x_max := 1.5 in
  let unsafe_vel_max := 100 in
  let unsafe_theta_min := - PI / 8 in
  let unsafe_theta_max := PI / 8 in
  let unsafe_theta_in_range := false in
  let rgn := set_unsafe_region unsafe_x_min unsafe_x_max unsafe_vel_max
               unsafe_theta_min unsafe_theta_max unsafe_theta_in_range in
  (* Disturbance bounds *)
  let x_dist := 0.0 in
  let theta_dist := 0.0 in
  let vel_dist := 0.02 in
  let thetadot_dist := 0.02 in
  (* Timesteps *)
  let tMin := 0.0 in
  let tMax := 10.0 in
  (* State space range *)
  let x_range := (-1.9, 1.9) in
  let theta_range := (- PI, PI) in
  let xdot_range := (-10, 10) in
  let thetadot_range := (-10, 10) in
  let grid_resolution := [51; 51; 51; 51]%nat in
  let time_resolution := 101%nat in
  let kw := utils.mkKwargs gravity umax length mass_cart mass_pole
              unsafe_x_min unsafe_x_max unsafe_vel_max
              unsafe_theta_min unsafe_theta_max
              x_dist theta_dist vel_dist thetadot_dist tMin tMax
              unsafe_theta_in_range in
  let cartpole_deepreach := utils.mkDeepreach kw in
  let cartpole_hjr := utils.mkHJR cartpole_deepreach kw in
  let state_domain :=
    mkBox (mkState x_range.1 theta_range.1 xdot_range.1 thetadot_range.1)
          (mkState x_range.2 theta_range.2 xdot_range.2 thetadot_range.2) in
  let grid := mkGrid state_domain grid_resolution [1%nat] in
  let sdf_values := boundary_fn cartpole_hjr grid in
  let times := linspace tMin (- tMax) time_resolution in
  let initial_values := sdf_values in
  '(all_values, cache') ←
    (if re_compute_hjr || negb (bool_decide (is_Some cache)) then
       let all_values := hj_solve cartpole_hjr grid times initial_values in
       Ret (all_values, Some all_values)
     else
       match cache with
       | Some all_values => Ret (all_values, cache)
       | None => Exc OSError
       end);
  target_values ← getitem_last (snapshots all_values);
  means ← mean_axes_1_4 (lattice all_values) (diff_axis0 (snapshots all_values));
  let diffs := map negative means in
  final_diff ← getitem_last diffs;
  Ret (mkBalance sparse swing_up rgn cartpole_deepreach cartpole_hjr
         grid all_values times target_values,
       cache',
       [PrintFinalDiff final_diff; PrintNewlines 4]).

(** [self.hjr_state_to_value] (line 333): the terminal snapshot is looked
    up at each call. *)
Definition hjr_state_to_value (self : Balance) (state : State) : outcome R :=
  terminal ← getitem_last (snapshots (hjr_all_values self));
  Ret (interpolate (hjr_grid self) terminal state).

(** [Balance.__init__]. *)
Definition Balance_init (swing_up sparse : bool) (cache : option ValueArray)
  : outcome (Balance * option ValueArray * list event) :=
  setup_hj_reachability sparse swing_up cache.

(** *** [Balance.initialize_episode] (lines 337-395) *)

(** The local variables of the sampling loop; [start_state] is unbound
    before the first iteration. *)
Record locals : Type := mkLocals {
  counter : nat;
  found_start : bool;
  start_state : option State
}.

Definition max_counter : nat := 1000.

(** [np.array([x, theta, xdot, thetadot])] (line 364).  [theta] is a number
    in the swing-up branch and the array [uniform(-.034, .034, nv - 1)] in
    the balance branch.  A list of three numbers and an array is ragged,
    whatever the length of the array: NumPy refuses to build it
    ([ValueError], inhomogeneous shape). *)
Definition np_array4 (x : R) (theta : R + list R) (xdot thetadot : R)
  : outcome State :=
  match theta with
  | inl theta => Ret (mkState x theta xdot thetadot)
  | inr _ => Exc ValueError
  end.

(** Lines 354-364: one candidate. *)
Definition draw_candidate (self : Balance) (nv : nat) (rng : RandomState)
  : outcome (State * RandomState) :=
  let '(x, theta, rng) :=
    if _swing_up self then
      let '(a, rng) := randn rng in
      let x := 0.01 * a in
      let '(b, rng) := randn rng in
      let theta := PI + 0.01 * b in
      (x, inl theta, rng)
    else
      let '(x, rng) := uniform (-0.1) 0.1 rng in
      let '(theta, rng) := uniform_n (-0.034) 0.034 (nv - 1) rng in
      (x, inr theta, rng) in
  let '(c, rng) := randn rng in
  let xdot := 0.01 * c in
  let '(d, rng) := randn rng in
  let thetadot := 0.01 * d in
  start_state ← np_array4 x theta xdot thetadot;
  Ret (start_state, rng).

(** The state forced when the budget is exhausted (line 374). *)
Definition fallback_state : State := mkState 0.0 PI 0.0 0.0.

(** Lines 354-379: the body of [while not found_start]. *)
Definition loop_body (self : Balance) (nv : nat)
    (st : locals * RandomState * list event)
  : outcome (locals * RandomState * list event) :=
  let '(l, rng, out) := st in
  '(candidate, rng) ← draw_candidate self nv rng;
  start_state_value ← hjr_state_to_value self candidate;
  let out := out ++ [Candidate candidate start_state_value] in
  if decide (start_state_value >= 0) then
    Ret (mkLocals (counter l) true (Some candidate), rng, out)
  else
    let counter := S (counter l) in
    if decide (counter > max_counter)%nat then
      start_state_val ← hjr_state_to_value self fallback_state;
      Ret (mkLocals counter true (Some fallback_state), rng,
           out ++ [PrintMaxCounterExceeded fallback_state;
                   PrintStartStateValue start_state_val;
                   PrintNewlines 3])
    else
      Ret (mkLocals counter false (Some candidate), rng, out).

Fixpoint while_not_found_start (fuel : nat) (self : Balance) (nv : nat)
    (st : locals * RandomState * list event)
  : outcome (locals * RandomState * list event) :=
  if found_start st.1.1 then Ret st
  else
    match fuel with
    | O => Fuel
    | S fuel =>
        st ← loop_body self nv st;
        while_not_found_start fuel self nv st
    end.

(** Lines 381-384. *)
Definition write_start_state (physics : Physics) (s : State) : outcome Physics :=
  physics ← set_named_qpos physics "slider" (st_x s);
  physics ← set_named_qpos physics "hinge_1" (st_theta s);
  physics ← set_qvel physics 0 (st_xdot s);
  set_qvel physics 1 (st_thetadot s).

Definition initialize_episode (fuel : nat) (self : Balance)
    (physics : Physics) (rng : RandomState)
  : outcome (Physics * RandomState * list event) :=
  let nv := model_nv physics in
  '(l, rng, out) ←
    while_not_found_start fuel self nv (mkLocals 0 false None, rng, []);
  s ← (match start_state l with Some s => Ret s | None => Exc NameError end);
  physics ← write_start_state physics s;
  Ret (base_initialize_episode physics, rng, out).

(** The state the classifier and the sampler speak about, read back from
    the physics. *)
Definition physics_state (physics : Physics) : outcome State :=
  x ← getitem (qpos physics) 0;
  theta ← getitem (qpos physics) 1;
  xdot ← getitem (qvel physics) 0;
  thetadot ← getitem (qvel physics) 1;
  Ret (mkState x theta xdot thetadot).

(** *** [Balance.get_observation] (lines 397-409) *)

Definition red : list R := [1; 0; 0; 1].
Definition default_color : list R := [0.5; 0.5; 0.5; 1].

Definition get_observation (self : Balance) (physics : Physics)
  : outcome (list (string * list R) * Physics) :=
  position ← bounded_position physics;
  let obs := [("position", position)] in
  let obs := obs ++ [("velocity", velocity physics)] in
  unsafe ← is_unsafe self physics;
  physics ←
    (if unsafe : bool then
       physics ← set_geom_rgba physics "pole_1" red;
       set_geom_rgba physics "cart" red
     else
       physics ← set_geom_rgba physics "pole_1" default_color;
       set_geom_rgba physics "cart" default_color);
  Ret (obs, physics).

(** *** [Balance._get_reward] (lines 411-428) *)

(** [array.mean()]; the mean of an empty array is a NaN, which is not a
    real number. *)
Definition mean (l : list R) : outcome R :=
  match l with
  | [] => Exc FloatNaN
  | _ => Ret (Rsum l / INR (List.length l))
  end.

(** [array.min()]; an empty array raises [ValueError]. *)
Definition array_min (l : list R) : outcome R :=
  match l with
  | [] => Exc ValueError
  | x :: l => Ret (foldr Rmin x l)
  end.

(** The four factors of the dense reward (lines 419-427), in the order the
    program computes them; [upright.mean()] is evaluated last, in the
    return expression. *)
Record shaping : Type := mkShaping {
  upright_mean : R;
  centered : R;
  small_control : R;
  small_velocity : R
}.

Definition dense_shaping (physics : Physics) : outcome shaping :=
  let upright := map (fun c => (c + 1) / 2) (pole_angle_cosine physics) in
  pos ← cart_position physics;
  centered ← rewards.tolerance_scalar pos 0.0 0.0 2 rewards.gaussian
               rewards._DEFAULT_VALUE_AT_MARGIN;
  let centered := (1 + centered) / 2 in
  controls ← rewards.tolerance (control physics) 0.0 0.0 1
               rewards.quadratic 0;
  small_control ← getitem controls 0;
  let small_control := (4 + small_control) / 5 in
  velocities ← rewards.tolerance (angular_vel physics) 0.0 0.0 5
                 rewards.gaussian rewards._DEFAULT_VALUE_AT_MARGIN;
  small_velocity ← array_min velocities;
  let small_velocity := (1 + small_velocity) / 2 in
  upright_mean ← mean upright;
  Ret (mkShaping upright_mean centered small_control small_velocity).

Definition _get_reward (self : Balance) (physics : Physics) (sparse : bool)
  : outcome R :=
  if sparse then
    pos ← cart_position physics;
    cart_in_bounds ← rewards.tolerance_scalar pos _CART_RANGE.1 _CART_RANGE.2
                       0.0 rewards.gaussian rewards._DEFAULT_VALUE_AT_MARGIN;
    angles ← rewards.tolerance (pole_angle_cosine physics)
                _ANGLE_COSINE_RANGE.1 _ANGLE_COSINE_RANGE.2
                0.0 rewards.gaussian rewards._DEFAULT_VALUE_AT_MARGIN;
    let angle_in_bounds := Rprod angles in
    Ret (cart_in_bounds * angle_in_bounds)
  else
    f ← dense_shaping physics;
    Ret (upright_mean f * small_control f * small_velocity f * centered f).

Definition get_reward (self : Balance) (physics : Physics) : outcome R :=
  _get_reward self physics (_sparse self).

End Task.

(** ** The configuration built by [setup_hj_reachability] *)

(** The constants of lines 240-276, as the method passes them on. *)
Definition configured_kwargs : utils.kwargs :=
  utils.mkKwargs (-9.8) 10 0.5 1.0 0.1 (-1.5) 1.5 100 (- PI / 8) (PI / 8)
    0.0 0.0 0.02 0.02 0.0 10.0 false.

Definition configured_region : UnsafeRegion :=
  set_unsafe_region (-1.5) 1.5 100 (- PI / 8) (PI / 8) false.

Definition configured_deepreach : utils.CartPoleDeepreach :=
  utils.mkDeepreach configured_kwargs.

Definition configured_hjr : utils.CartPoleHJR :=
  utils.mkHJR configured_deepreach configured_kwargs.

Definition configured_grid : Grid :=
  mkGrid (mkBox (mkState (-1.9) (- PI) (-10) (-10)) (mkState 1.9 PI 10 10))
    [51; 51; 51; 51]%nat [1%nat].

Definition configured_times : list R := linspace 0.0 (- (10.0)) 101.

(** The pole cosines are entries of rotation matrices. *)
Definition cosines_in_range (physics : Physics) : Prop :=
  Forall (fun c => -1 <= c <= 1) (pole_angle_cosine physics).

(** The two tolerance curves of the dense reward. *)
Definition tol_gaussian (margin : R) : R -> R :=
  rewards.tolerance_at 0.0 0.0 margin rewards._DEFAULT_VALUE_AT_MARGIN
    rewards.gaussian.

Definition tol_quadratic : R -> R :=
  rewards.tolerance_at 0.0 0.0 1 0 rewards.quadratic.

(** An upright, centred cart-pole at rest with zero control: one pole, the
    orientation of every body the identity. *)
Definition identity_mat : Mat3 := mkMat3 1 0 0 0 1 0 0 0 1.

Definition upright_rest : Physics :=
  mkPhysics [0; 0] [0; 0] [0] [identity_mat; identity_mat; identity_mat]
    {["cart" := [0.5; 0.5; 0.5; 1]; "pole_1" := [0.5; 0.5; 0.5; 1]]}.

(** The same cart-pole hanging straight down. *)
Definition hanging_rest : Physics :=
  mkPhysics [0; PI] [0; 0] [0]
    [identity_mat; identity_mat; mkMat3 (-1) 0 0 0 1 0 0 0 (-1)]
    {["cart" := [0.5; 0.5; 0.5; 1]; "pole_1" := [0.5; 0.5; 0.5; 1]]}.

(** A value array on a one-point lattice: two snapshots of the constant [v].
    Its shape is (2, 1, 1, 1, 1). *)
Definition constant_values (v : R) : ValueArray :=
  mkValues [1; 1; 1; 1]%nat [[v]; [v]].

(** A value array with an empty first lattice axis: two snapshots without
    entries.  Its shape is (2, 0, 1, 1, 1). *)
Definition empty_axis_values : ValueArray :=
  mkValues [0; 1; 1; 1]%nat [[]; []].

(** The physics with the hinge angle replaced. *)
Definition with_hinge (physics : Physics) (q : R) : Physics :=
  mkPhysics (<[1%nat := q]> (qpos physics)) (qvel physics) (ctrl physics)
    (xmat physics) (geom_rgba physics).

(** A call [self.set_unsafe_region(...)] on a task: the region attributes
    are assigned anew, every other attribute is kept. *)
Definition with_unsafe_region (self : Balance) (rgn : UnsafeRegion) : Balance :=
  mkBalance (_sparse self) (_swing_up self) rgn (cartpole_deepreach self)
    (cartpole_hjr self) (hjr_grid self) (hjr_all_values self) (hjr_times self)
    (hjr_target_values self).

(** The configured region with both angle bounds set to 0. *)
Definition equal_theta_region : UnsafeRegion :=
  set_unsafe_region (-1.5) 1.5 100 0 0 false.

(** The array [setup_hj_reachability] works on: the cached one when the file
    exists, the solver's otherwise. *)
Definition selected_values
    (hj_solve : utils.CartPoleHJR -> Grid -> list R -> list R -> ValueArray)
    (boundary_fn : utils.CartPoleHJR -> Grid -> list R)
    (cache : option ValueArray) : ValueArray :=
  match cache with
  | Some a => a
  | None =>
      hj_solve configured_hjr configured_grid configured_times
        (boundary_fn configured_hjr configured_grid)
  end.

(** ** Traces of the sampling loop *)

(** The candidates a trace records, with their values. *)
Definition candidates (out : list event) : list (State * R) :=
  omap (fun e => match e with Candidate s v => Some (s, v) | _ => None end) out.

(** What the exhaustion branch prints. *)
Definition exhaustion_report (fv : R) : list event :=
  [PrintMaxCounterExceeded fallback_state; PrintStartStateValue fv;
   PrintNewlines 3].

Module Trace.
Section Shapes.

Variable RandomState : Type.
Variable interpolate : Grid -> list R -> State -> R.

(** A trace of rejected candidates only. *)
Definition rejected (self : Balance) (out : list event) : Prop :=
  Forall (fun e => exists s v,
              e = Candidate s v
              /\ hjr_state_to_value interpolate self s = Ret v
              /\ ~ v >= 0)
    out.

(** The two ways the loop ends: a candidate of non-negative value after at
    most [max_counter] rejections, or the report after [max_counter + 1]
    rejections. *)
Inductive finished (self : Balance) : list event -> State -> Prop :=
| finished_accept (rej : list event) (s : State) (v : R) :
    rejected self rej ->
    (List.length rej <= max_counter)%nat ->
    hjr_state_to_value interpolate self s = Ret v ->
    v >= 0 ->
    finished self (rej ++ [Candidate s v]) s
| finished_fallback (rej : list event) (fv : R) :
    rejected self rej ->
    List.length rej = S max_counter ->
    hjr_state_to_value interpolate self fallback_state = Ret fv ->
    finished self (rej ++ exhaustion_report fv) fallback_state.

Inductive loop_inv (self : Balance)
  : locals * RandomState * list event -> Prop :=
| inv_searching (c : nat) (ss : option State) (rng : RandomState)
    (rej : list event) :
    rejected self rej ->
    List.length rej = c ->
    (c <= max_counter)%nat ->
    loop_inv self (mkLocals c false ss, rng, rej)
| inv_found (c : nat) (s : State) (rng : RandomState) (out : list event) :
    finished self out s ->
    loop_inv self (mkLocals c true (Some s), rng, out).

End Shapes.
End Trace.

(** ** A concrete instance for running the task *)

(** A generator whose normal draws are all zero and whose uniform draws are
    all the lower bound; an interpolation for the one-point lattice of
    [constant_values]; a task holding [constant_values v]. *)
Definition zero_randn (u : unit) : R * unit := (0, u).

Definition low_uniform (lo hi : R) (u : unit) : R * unit := (lo, u).

Definition low_uniform_n (lo hi : R) (n : nat) (u : unit) : list R * unit :=
  (replicate n lo, u).

(** A parent hook that does nothing. *)
Definition no_hook (physics : Physics) : Physics := physics.

Definition point_interpolate (g : Grid) (block : list R) (s : State) : R :=
  nth 0 block 0.

Definition constant_task (swing_up : bool) (v : R) : Balance :=
  mkBalance false swing_up configured_region configured_deepreach
    configured_hjr configured_grid (constant_values v) configured_times [v].

(** A two-pole cart-pole at rest, the second pole tilted: a physics with more
    entries than the one-pole sampler and classifier look at. *)
Definition two_pole_rest : Physics :=
  mkPhysics [0; 0; 0.3] [0; 0; 0.7] [0]
    [identity_mat; identity_mat; identity_mat;
     mkMat3 0.6 0 0.8 0 1 0 (-0.8) 0 0.6]
    {["cart" := [1; 0; 0; 1]; "pole_1" := [1; 0; 0; 1];
      "pole_2" := [0.5; 0.5; 0.5; 1]]}.

(** A solver that returns a given array. *)
Definition solver_returning (a : ValueArray)
  : utils.CartPoleHJR -> Grid -> list R -> list R -> ValueArray :=
  fun _ _ _ _ => a.

(** [hanging_rest] with the cart and the pole painted red. *)
Definition hanging_rest_red : Physics :=
  mkPhysics [0; PI] [0; 0] [0]
    [identity_mat; identity_mat; mkMat3 (-1) 0 0 0 1 0 0 0 (-1)]
    {["cart" := [1; 0; 0; 1]; "pole_1" := [1; 0; 0; 1]]}.

(** ** The task factories (lines 82-145)

    Each factory builds a physics from the model XML, a [Balance] task and a
    [control.Environment] around both.  The physics and the environment are
    the library's; the embedding keeps the task each factory constructs.
    [num_poles] only reaches the model XML. *)

Section Factories.

Variable hj_solve : utils.CartPoleHJR -> Grid -> list R -> list R -> ValueArray.
Variable boundary_fn : utils.CartPoleHJR -> Grid -> list R.

Definition balance (cache : option ValueArray) :=
  Balance_init hj_solve boundary_fn false false cache.

Definition balance_sparse (cache : option ValueArray) :=
  Balance_init hj_solve boundary_fn false true cache.

Definition swingup (cache : option ValueArray) :=
  Balance_init hj_solve boundary_fn true false cache.

Definition swingup_sparse (cache : option ValueArray) :=
  Balance_init hj_solve boundary_fn true true cache.

Definition two_poles (cache : option ValueArray) :=
  Balance_init hj_solve boundary_fn true false cache.

Definition three_poles (num_poles : nat) (sparse : bool)
    (cache : option ValueArray) :=
  Balance_init hj_solve boundary_fn true sparse cache.

End Factories.

(** A task with its two mode flags replaced. *)
Definition with_flags (self : Balance) (swing_up sparse : bool) : Balance :=
  mkBalance sparse swing_up (region self) (cartpole_deepreach self)
    (cartpole_hjr self) (hjr_grid self) (hjr_all_values self) (hjr_times self)
    (hjr_target_values self).

(** * Properties *)

(** ** The floored remainder and the wrapped angle *)

Lemma py_mod_bound (a b : R) : 0 < b -> 0 <= py_mod a b < b.
Proof.
  intros Hb. unfold py_mod.
  destruct (Zfloor_bound (a / b)) as [Hlo Hhi].
  assert (Ha : a = b * (a / b)) by (field; lra).
  split.
  - apply Rmult_le_compat_l with (r := b) in Hlo; [|lra]. lra.
  - apply Rmult_lt_compat_l with (r := b) in Hhi; [|lra]. lra.
Qed.

Lemma py_mod_period (a b : R) (k : Z) :
  0 < b -> py_mod (a + b * IZR k) b = py_mod a b.
Proof.
  intros Hb. unfold py_mod.
  replace ((a + b * IZR k) / b) with (a / b + IZR k) by (field; lra).
  rewrite Zfloor_addz, plus_IZR. ring.
Qed.

Lemma py_mod_small (a b : R) : 0 <= a < b -> py_mod a b = a.
Proof.
  intros [Ha Hab]. unfold py_mod.
  assert (Hb : 0 < b) by lra.
  rewrite (Zfloor_eq 0 (a / b)); [simpl; ring|]. simpl.
  split.
  - apply Rmult_le_reg_r with (r := b); [lra|].
    replace (a / b * b) with a by (field; lra). lra.
  - apply Rmult_lt_reg_r with (r := b); [lra|].
    replace (a / b * b) with a by (field; lra). lra.
Qed.

Lemma wrap_angle_bound (q : R) : - PI <= wrap_angle q < PI.
Proof.
  unfold wrap_angle.
  pose proof PI_RGT_0.
  destruct (py_mod_bound (q + PI) (2 * PI)); lra.
Qed.

Lemma wrap_angle_period (q : R) (k : Z) :
  wrap_angle (q + 2 * PI * IZR k) = wrap_angle q.
Proof.
  unfold wrap_angle. pose proof PI_RGT_0.
  replace (q + 2 * PI * IZR k + PI) with (q + PI + 2 * PI * IZR k) by ring.
  rewrite py_mod_period by lra. reflexivity.
Qed.

Lemma wrap_angle_id (q : R) : - PI <= q < PI -> wrap_angle q = q.
Proof.
  intros Hq. unfold wrap_angle. rewrite py_mod_small; lra.
Qed.

Lemma wrap_angle_PI : wrap_angle PI = - PI.
Proof.
  pose proof PI_RGT_0.
  replace PI with (- PI + 2 * PI * IZR 1) at 1 by (simpl; ring).
  rewrite wrap_angle_period. apply wrap_angle_id. lra.
Qed.

(** C5 (as the code has it): [is_unsafe] hands the classifier the state
    read from the physics with the hinge angle replaced by its wrapped
    value, and the wrapped value lies in the closed interval [-pi, pi]. *)
Theorem is_unsafe_wraps_angle :
  forall (classifier : utils.CartPoleDeepreach -> State -> bool)
         (self : Balance) (physics : Physics),
    is_unsafe classifier self physics
    = (s ← physics_state physics;
       Ret (classifier (cartpole_deepreach self)
              (mkState (st_x s) (wrap_angle (st_theta s)) (st_xdot s)
                 (st_thetadot s))))
    /\ (forall q : R, - PI <= wrap_angle q <= PI).
Proof.
  intros classifier self physics. split.
  - unfold is_unsafe, physics_state.
    destruct (getitem (qpos physics) 0) as [x| |]; simpl; try reflexivity.
    destruct (getitem (qpos physics) 1) as [q| |]; simpl; try reflexivity.
    destruct (getitem (qvel physics) 0) as [xd| |]; simpl; try reflexivity.
    destruct (getitem (qvel physics) 1) as [td| |]; simpl; reflexivity.
  - intros q. pose proof (wrap_angle_bound q). lra.
Qed.

(** C5 as stated fails at the raw hinge angle pi: it wraps to -pi, which is
    not in (-pi, pi], in exact arithmetic and in binary64 alike.  In
    binary64 the upper end is attained as well, by the float just below
    -pi; and the floats pi/8 and pi/8 + 2*pi do not wrap to the same value:
    the first stays within the upper bound pi/8 of the configured unsafe
    band, the second exceeds it. *)
Lemma wrap_angle_not_in_left_open_interval :
  (wrap_angle PI = - PI /\ ~ (- PI < wrap_angle PI <= PI))
  /\ binary64.wrap_angle binary64.pi = binary64.neg binary64.pi
  /\ binary64.ltb (binary64.neg binary64.pi)
       (binary64.wrap_angle binary64.pi) = false
  /\ binary64.wrap_angle (binary64.nextdown (binary64.neg binary64.pi))
     = binary64.pi
  /\ binary64.leb (binary64.wrap_angle binary64.eighth_pi)
       binary64.eighth_pi = true
  /\ binary64.leb (binary64.wrap_angle binary64.eighth_pi_turned)
       binary64.eighth_pi = false.
Proof.
  split.
  - split; [apply wrap_angle_PI|]. rewrite wrap_angle_PI. lra.
  - repeat split; vm_compute; reflexivity.
Qed.

(** ** Outcomes *)

Lemma bind_Ret_inv {A B : Type} (m : outcome A) (k : A -> outcome B) (b : B) :
  m ≫= k = Ret b -> exists a, m = Ret a /\ k a = Ret b.
Proof. destruct m as [a| |]; simpl; [eauto|discriminate..]. Qed.

Lemma bind_Ret {A B : Type} (m : outcome A) (k : A -> outcome B) (a : A) :
  m = Ret a -> m ≫= k = k a.
Proof. intros ->. reflexivity. Qed.

(** Splits a hypothesis [m ≫= k = Ret b] into its two steps. *)
Tactic Notation "bind_inv" hyp(H) "as" ident(a) ident(Ha) :=
  apply bind_Ret_inv in H; destruct H as (a & Ha & H).

Lemma getitem_Ret {A : Type} (l : list A) (i : nat) (a : A) :
  getitem l i = Ret a <-> l !! i = Some a.
Proof.
  unfold getitem. destruct (l !! i); split; intros H; inversion H; reflexivity.
Qed.

(** ** The tolerance function *)

Lemma exp_nonpos (x : R) : x <= 0 -> 0 < exp x <= 1.
Proof.
  intros Hx. split; [apply exp_pos|].
  destruct Hx as [Hlt | ->]; [|rewrite exp_0; lra].
  apply exp_increasing in Hlt. rewrite exp_0 in Hlt. lra.
Qed.

Lemma sigmoids_range (x v : R) (s : rewards.sigmoid) :
  rewards.sigmoid_args v s = Ret tt -> 0 <= rewards._sigmoids x v s <= 1.
Proof.
  destruct s; simpl; intros _.
  - match goal with |- context [exp ?e] => destruct (exp_nonpos e) end; [|lra].
    match goal with |- context [(?y * (?y * 1))] => pose proof (pow2_ge_0 y) end.
    simpl in *. lra.
  - case_decide as Habs; [|lra].
    apply Rabs_def2 in Habs. nra.
Qed.

Lemma tolerance_at_range (lower upper margin v : R) (s : rewards.sigmoid) (x : R) :
  rewards.tolerance_args lower upper margin v s = Ret tt ->
  0 <= rewards.tolerance_at lower upper margin v s x <= 1.
Proof.
  unfold rewards.tolerance_args, rewards.tolerance_at. intros Hargs.
  repeat case_decide; try discriminate;
    destruct (bool_decide (lower <= x) && bool_decide (x <= upper)); try lra.
  all: apply sigmoids_range, Hargs.
Qed.

Lemma tolerance_at_in_bounds (lower upper margin v : R) (s : rewards.sigmoid) (x : R) :
  lower <= x <= upper -> rewards.tolerance_at lower upper margin v s x = 1.
Proof.
  intros [Hl Hu]. unfold rewards.tolerance_at.
  rewrite !bool_decide_eq_true_2 by assumption. simpl.
  case_decide; reflexivity.
Qed.

(** The argument checks pass at the three calls of the dense reward. *)
Lemma tolerance_args_gaussian (margin : R) :
  0 < margin ->
  rewards.tolerance_args 0.0 0.0 margin rewards._DEFAULT_VALUE_AT_MARGIN
    rewards.gaussian = Ret tt.
Proof.
  intros Hm. unfold rewards.tolerance_args, rewards.sigmoid_args,
    rewards._DEFAULT_VALUE_AT_MARGIN.
  repeat case_decide; try reflexivity; lra.
Qed.

Lemma tolerance_args_quadratic :
  rewards.tolerance_args 0.0 0.0 1 0 rewards.quadratic = Ret tt.
Proof.
  unfold rewards.tolerance_args, rewards.sigmoid_args.
  repeat case_decide; try reflexivity; lra.
Qed.

(** ** Means and minima *)

Lemma Rsum_range (l : list R) :
  Forall (fun c => 0 <= c <= 1) l -> 0 <= Rsum l <= INR (List.length l).
Proof.
  induction 1 as [|c l Hc _ IH]; simpl; [lra|].
  change (Rsum (c :: l)) with (c + Rsum l).
  destruct (List.length l); simpl in *; lra.
Qed.

Lemma Rdiv_unit_range (a n : R) : 0 <= a <= n -> 0 < n -> 0 <= a / n <= 1.
Proof.
  intros [Hlo Hhi] Hn. split.
  - apply Rmult_le_reg_r with (r := n); [assumption|].
    unfold Rdiv. rewrite Rmult_assoc, Rinv_l by lra. lra.
  - apply Rmult_le_reg_r with (r := n); [assumption|].
    unfold Rdiv. rewrite Rmult_assoc, Rinv_l by lra. lra.
Qed.

Lemma mean_range (l : list R) (m : R) :
  Forall (fun c => 0 <= c <= 1) l -> mean l = Ret m -> 0 <= m <= 1.
Proof.
  intros Hl Hm. destruct l as [|c l]; [discriminate|].
  assert (Hn : 0 < INR (List.length (c :: l))) by (apply lt_0_INR; simpl; lia).
  pose proof (Rdiv_unit_range _ _ (Rsum_range _ Hl) Hn) as Hrange.
  unfold mean in Hm. injection Hm as <-. exact Hrange.
Qed.

Lemma mean_defined (l : list R) : l <> [] -> exists m, mean l = Ret m.
Proof. destruct l; [congruence|]. simpl. eauto. Qed.

Lemma array_min_range (lo hi : R) (l : list R) (m : R) :
  Forall (fun c => lo <= c <= hi) l -> array_min l = Ret m -> lo <= m <= hi.
Proof.
  destruct l as [|x l]; [discriminate|]. simpl.
  intros Hl [= <-]. inversion Hl as [|? ? Hx Hl']; subst. clear Hl.
  induction Hl' as [|c l Hc _ IH]; simpl; [assumption|].
  apply Rmin_case; assumption.
Qed.

Lemma array_min_defined (l : list R) : l <> [] -> exists m, array_min l = Ret m.
Proof. destruct l; [congruence|]. simpl. eauto. Qed.

Lemma Rsum_ones (l : list R) : Forall (fun c => c = 1) l -> Rsum l = INR (List.length l).
Proof.
  induction 1 as [|c l -> _ IH]; [reflexivity|].
  change (Rsum (1 :: l)) with (1 + Rsum l).
  change (List.length (1 :: l)) with (S (List.length l)).
  rewrite S_INR, IH. ring.
Qed.

Lemma mean_ones (l : list R) : l <> [] -> Forall (fun c => c = 1) l -> mean l = Ret 1.
Proof.
  intros Hne Hl. destruct l as [|c l]; [congruence|].
  assert (Hn : 0 < INR (List.length (c :: l))) by (apply lt_0_INR; simpl; lia).
  assert (Hm : Rsum (c :: l) / INR (List.length (c :: l)) = 1)
    by (rewrite (Rsum_ones _ Hl); field; lra).
  unfold mean. f_equal. exact Hm.
Qed.

Lemma array_min_ones (l : list R) :
  l <> [] -> Forall (fun c => c = 1) l -> array_min l = Ret 1.
Proof.
  intros Hne Hl. destruct (array_min_defined l Hne) as [m Hm].
  rewrite Hm. f_equal.
  pose proof (array_min_range 1 1 l m) as Hr.
  destruct Hr; [|assumption|lra].
  eapply Forall_impl; [exact Hl|]. simpl. intros c ->. lra.
Qed.

(** ** The dense reward *)

(** What [dense_shaping] computes, step by step. *)
Lemma dense_shaping_unfold (physics : Physics) :
  dense_shaping physics
  = (pos ← cart_position physics;
     c ← getitem (map tol_quadratic (control physics)) 0;
     v ← array_min (map (tol_gaussian 5) (angular_vel physics));
     u ← mean (map (fun c => (c + 1) / 2) (pole_angle_cosine physics));
     Ret (mkShaping u ((1 + tol_gaussian 2 pos) / 2) ((4 + c) / 5) ((1 + v) / 2))).
Proof.
  unfold dense_shaping, rewards.tolerance_scalar, rewards.tolerance.
  rewrite !tolerance_args_gaussian by lra.
  rewrite tolerance_args_quadratic. reflexivity.
Qed.

Lemma tol_gaussian_range (margin x : R) : 0 < margin -> 0 <= tol_gaussian margin x <= 1.
Proof. intros Hm. apply tolerance_at_range, tolerance_args_gaussian, Hm. Qed.

Lemma tol_quadratic_range (x : R) : 0 <= tol_quadratic x <= 1.
Proof. apply tolerance_at_range, tolerance_args_quadratic. Qed.

Lemma dense_shaping_range (physics : Physics) (f : shaping) :
  cosines_in_range physics ->
  dense_shaping physics = Ret f ->
  0 <= upright_mean f <= 1 /\ 1 / 2 <= centered f <= 1
  /\ 4 / 5 <= small_control f <= 1 /\ 1 / 2 <= small_velocity f <= 1.
Proof.
  intros Hcos H. rewrite dense_shaping_unfold in H.
  bind_inv H as pos Hpos.
  bind_inv H as c Hc.
  bind_inv H as v Hv.
  bind_inv H as u Hu.
  injection H as <-. simpl.
  assert (Hcr : 0 <= c <= 1).
  { apply getitem_Ret in Hc. rewrite list_lookup_fmap in Hc.
    destruct (control physics !! 0%nat) as [c0|]; [|discriminate].
    injection Hc as <-. apply tol_quadratic_range. }
  assert (Hvr : 0 <= v <= 1).
  { eapply array_min_range; [|exact Hv].
    apply Forall_forall. intros y Hy. apply list_elem_of_In, in_map_iff in Hy.
    destruct Hy as (w & <- & _). apply tol_gaussian_range. lra. }
  assert (Hur : 0 <= u <= 1).
  { eapply mean_range; [|exact Hu].
    apply Forall_forall. intros y Hy. apply list_elem_of_In, in_map_iff in Hy.
    destruct Hy as (w & <- & Hw). apply list_elem_of_In in Hw.
    unfold cosines_in_range in Hcos. rewrite Forall_forall in Hcos.
    specialize (Hcos w Hw). lra. }
  pose proof (tol_gaussian_range 2 pos ltac:(lra)). lra.
Qed.

Lemma dense_shaping_defined (physics : Physics) (pos : R) :
  cart_position physics = Ret pos ->
  pole_angle_cosine physics <> [] ->
  control physics <> [] ->
  angular_vel physics <> [] ->
  exists f, dense_shaping physics = Ret f.
Proof.
  intros Hpos Hcos Hctl Hvel. rewrite dense_shaping_unfold, Hpos. simpl.
  destruct (control physics) as [|c0 ctl] eqn:Ec; [congruence|]. simpl.
  destruct (array_min_defined (map (tol_gaussian 5) (angular_vel physics))) as [v ->].
  { destruct (angular_vel physics); [congruence|discriminate]. }
  simpl.
  destruct (mean_defined (map (fun c => (c + 1) / 2) (pole_angle_cosine physics)))
    as [u ->].
  { destruct (pole_angle_cosine physics); [congruence|discriminate]. }
  simpl. eauto.
Qed.

Lemma unit_product_range (a b c d : R) :
  0 <= a <= 1 -> 0 <= b <= 1 -> 0 <= c <= 1 -> 0 <= d <= 1 ->
  0 <= a * b * c * d <= 1.
Proof.
  intros Ha Hb Hc Hd.
  assert (Hab : 0 <= a * b <= 1) by nra.
  assert (Habc : 0 <= a * b * c <= 1) by nra.
  nra.
Qed.

Lemma dense_shaping_upright_rest (physics : Physics) :
  cart_position physics = Ret 0 ->
  pole_angle_cosine physics <> [] ->
  Forall (fun c => c = 1) (pole_angle_cosine physics) ->
  control physics <> [] ->
  Forall (fun u => u = 0) (control physics) ->
  angular_vel physics <> [] ->
  Forall (fun w => w = 0) (angular_vel physics) ->
  dense_shaping physics = Ret (mkShaping 1 1 1 1).
Proof.
  intros Hpos Hcne Hcos Hune Hctl Hwne Hvel.
  rewrite dense_shaping_unfold, Hpos. simpl.
  destruct (control physics) as [|u0 ctl]; [congruence|].
  inversion Hctl as [|? ? Hu0 _]; subst. simpl.
  rewrite (array_min_ones (map (tol_gaussian 5) (angular_vel physics))).
  - rewrite (mean_ones (map (fun c => (c + 1) / 2) (pole_angle_cosine physics))).
    + simpl. unfold tol_gaussian, tol_quadratic.
      rewrite !tolerance_at_in_bounds by lra.
      f_equal. f_equal; field.
    + destruct (pole_angle_cosine physics); [congruence|discriminate].
    + apply Forall_fmap. eapply Forall_impl; [exact Hcos|].
      simpl. intros c ->. field.
  - destruct (angular_vel physics); [congruence|discriminate].
  - apply Forall_fmap. eapply Forall_impl; [exact Hvel|].
    simpl. intros w ->. apply tolerance_at_in_bounds. lra.
Qed.

(** C8: with dense shaping, an upright (every pole cosine 1), centred (cart
    position 0), zero-control, zero-angular-velocity physics state has all
    four shaping factors equal to 1 and reward exactly 1; and 1 is the
    largest value each factor takes on any physics state whose pole cosines
    lie in [-1, 1]. *)
Theorem dense_reward_upright_rest_is_one (self : Balance) (physics : Physics) :
  cart_position physics = Ret 0 ->
  pole_angle_cosine physics <> [] ->
  Forall (fun c => c = 1) (pole_angle_cosine physics) ->
  control physics <> [] ->
  Forall (fun u => u = 0) (control physics) ->
  angular_vel physics <> [] ->
  Forall (fun w => w = 0) (angular_vel physics) ->
  dense_shaping physics = Ret (mkShaping 1 1 1 1)
  /\ _get_reward self physics false = Ret 1
  /\ (forall (other : Physics) (f : shaping),
        cosines_in_range other -> dense_shaping other = Ret f ->
        upright_mean f <= 1 /\ centered f <= 1
        /\ small_control f <= 1 /\ small_velocity f <= 1).
Proof.
  intros Hpos Hcne Hcos Hune Hctl Hwne Hvel.
  pose proof (dense_shaping_upright_rest physics Hpos Hcne Hcos Hune Hctl Hwne Hvel)
    as Hf.
  split; [exact Hf|split].
  - unfold _get_reward. rewrite Hf. simpl. f_equal. ring.
  - intros other f Hrange Hother.
    pose proof (dense_shaping_range other f Hrange Hother). lra.
Qed.

(** C10: on a physics state whose pole cosines lie in [-1, 1], a dense
    reward that is returned is the product of the four shaping factors, the
    uprightness mean lies in [0, 1], the centering factor in [1/2, 1], the
    control-effort factor in [4/5, 1], the angular-velocity factor in
    [1/2, 1], and the reward lies in [0, 1]; the reward is returned whenever
    the cart position can be read and there is at least one pole, one control
    and one angular velocity. *)
Theorem dense_reward_in_unit_interval (self : Balance) (physics : Physics) :
  cosines_in_range physics ->
  (forall r : R,
     _get_reward self physics false = Ret r ->
     exists f : shaping,
       dense_shaping physics = Ret f
       /\ r = upright_mean f * small_control f * small_velocity f * centered f
       /\ 0 <= upright_mean f <= 1
       /\ 1 / 2 <= centered f <= 1
       /\ 4 / 5 <= small_control f <= 1
       /\ 1 / 2 <= small_velocity f <= 1
       /\ 0 <= r <= 1)
  /\ (forall pos : R,
        cart_position physics = Ret pos ->
        pole_angle_cosine physics <> [] ->
        control physics <> [] ->
        angular_vel physics <> [] ->
        exists r : R, _get_reward self physics false = Ret r).
Proof.
  intros Hcos. split.
  - intros r Hr. unfold _get_reward in Hr.
    bind_inv Hr as f Hf. injection Hr as <-.
    pose proof (dense_shaping_range physics f Hcos Hf) as (Hu & Hc & Hs & Hv).
    pose proof (unit_product_range (upright_mean f) (small_control f)
                  (small_velocity f) (centered f)) as Hprod.
    exists f. repeat split; try assumption; try reflexivity; lra.
  - intros pos Hpos Hcne Hune Hwne.
    destruct (dense_shaping_defined physics pos Hpos Hcne Hune Hwne) as [f Hf].
    unfold _get_reward. rewrite Hf. simpl. eauto.
Qed.

(** ** Construction of the value function store *)

Lemma getitem_last_nonempty {A : Type} (l : list A) :
  l <> [] -> exists a, getitem_last l = Ret a.
Proof.
  intros Hne. unfold getitem_last.
  destruct (last l) as [a|] eqn:E; [eauto|].
  apply last_None in E. congruence.
Qed.

Lemma getitem_last_Ret {A : Type} (l : list A) (a : A) :
  getitem_last l = Ret a -> l <> [].
Proof. intros H ->. discriminate. Qed.

Lemma diff_axis0_length (snaps : list (list R)) :
  List.length (diff_axis0 snaps) = (List.length snaps - 1)%nat.
Proof.
  unfold diff_axis0. rewrite length_zip_with, length_drop. lia.
Qed.

Section Construction.

Variable hj_solve : utils.CartPoleHJR -> Grid -> list R -> list R -> ValueArray.
Variable boundary_fn : utils.CartPoleHJR -> Grid -> list R.

Abbreviation selected := (selected_values hj_solve boundary_fn).

Lemma setup_hj_reachability_unfold (sparse swing_up : bool)
    (cache : option ValueArray) :
  setup_hj_reachability hj_solve boundary_fn sparse swing_up cache
  = (let a := selected cache in
     target ← getitem_last (snapshots a);
     means ← mean_axes_1_4 (lattice a) (diff_axis0 (snapshots a));
     final_diff ← getitem_last (map negative means);
     Ret (mkBalance sparse swing_up configured_region configured_deepreach
            configured_hjr configured_grid a configured_times target,
          Some a,
          [PrintFinalDiff final_diff; PrintNewlines 4])).
Proof. destruct cache; reflexivity. Qed.

Lemma setup_hj_reachability_Ret (sparse swing_up : bool)
    (cache : option ValueArray) (a := selected cache) :
  (4 <= List.length (lattice a))%nat ->
  (2 <= List.length (snapshots a))%nat ->
  exists (target : list R) (final_diff : list (option R)),
    setup_hj_reachability hj_solve boundary_fn sparse swing_up cache
    = Ret (mkBalance sparse swing_up configured_region configured_deepreach
             configured_hjr configured_grid a configured_times target,
           Some a,
           [PrintFinalDiff final_diff; PrintNewlines 4])
    /\ last (snapshots a) = Some target.
Proof.
  intros Hrank Hsnaps. rewrite setup_hj_reachability_unfold. fold a. simpl.
  destruct (getitem_last_nonempty (snapshots a)) as [target Ht].
  { intros E. rewrite E in Hsnaps. simpl in Hsnaps. lia. }
  rewrite Ht. simpl. unfold mean_axes_1_4.
  rewrite decide_True by assumption. simpl.
  destruct (getitem_last_nonempty
              (map negative (map (block_mean (lattice a))
                                (diff_axis0 (snapshots a)))))
    as [d Hd].
  { intros E. apply (f_equal List.length) in E.
    rewrite !length_map, diff_axis0_length in E. simpl in E. lia. }
  rewrite Hd. simpl. exists target, d. split; [reflexivity|].
  unfold getitem_last in Ht. destruct (last (snapshots a)); congruence.
Qed.

Lemma setup_hj_reachability_Ret_inv (sparse swing_up : bool)
    (cache : option ValueArray) (a := selected cache) r :
  setup_hj_reachability hj_solve boundary_fn sparse swing_up cache = Ret r ->
  (4 <= List.length (lattice a))%nat /\ (2 <= List.length (snapshots a))%nat.
Proof.
  rewrite setup_hj_reachability_unfold. fold a. simpl. intros H.
  bind_inv H as target Ht.
  bind_inv H as means Hm.
  bind_inv H as d Hd.
  unfold mean_axes_1_4 in Hm. case_decide as Hrank; [|discriminate].
  injection Hm as <-. split; [assumption|].
  apply getitem_last_Ret in Hd.
  assert (Hlen : List.length (diff_axis0 (snapshots a)) <> 0%nat).
  { intros E. apply Hd. apply length_zero_iff_nil.
    rewrite !length_map. exact E. }
  rewrite diff_axis0_length in Hlen. lia.
Qed.

End Construction.

(** C7 (as the code has it): construction from the cache file compares
    nothing with the grid.  It succeeds, keeping the loaded array as the
    value function next to the configured 51x51x51x51 grid, exactly when the
    array has at least four lattice axes and at least two snapshots; the
    resolution of the lattice plays no role. *)
Theorem setup_accepts_any_lattice_resolution :
  forall (hj_solve : utils.CartPoleHJR -> Grid -> list R -> list R -> ValueArray)
         (boundary_fn : utils.CartPoleHJR -> Grid -> list R)
         (sparse swing_up : bool) (a : ValueArray),
    (exists (task : Balance) (out : list event),
        setup_hj_reachability hj_solve boundary_fn sparse swing_up (Some a)
        = Ret (task, Some a, out)
        /\ hjr_all_values task = a
        /\ hjr_grid task = configured_grid)
    <-> (4 <= List.length (lattice a))%nat /\ (2 <= List.length (snapshots a))%nat.
Proof.
  intros hj_solve boundary_fn sparse swing_up a. split.
  - intros (task & out & Hsetup & _).
    exact (setup_hj_reachability_Ret_inv hj_solve boundary_fn sparse swing_up
             (Some a) _ Hsetup).
  - intros [Hrank Hsnaps].
    destruct (setup_hj_reachability_Ret hj_solve boundary_fn sparse swing_up
                (Some a) Hrank Hsnaps) as (target & d & Hsetup & _).
    eexists _, _. split; [exact Hsetup|]. split; reflexivity.
Qed.

(** C7 as stated fails: a cached array of shape (2, 1, 1, 1, 1) does not
    match the 51x51x51x51 grid, and the construction returns a task that
    holds it. *)
Lemma mismatched_cache_is_accepted :
  values_shape (constant_values 0) = [2; 1; 1; 1; 1]%nat
  /\ lattice (constant_values 0) <> grid_shape configured_grid
  /\ exists (task : Balance) (out : list event),
       setup_hj_reachability (fun _ _ _ _ => mkValues [] []) (fun _ _ => [])
         false false (Some (constant_values 0))
       = Ret (task, Some (constant_values 0), out)
       /\ hjr_all_values task = constant_values 0
       /\ grid_shape (hjr_grid task) = [51; 51; 51; 51]%nat.
Proof.
  split; [reflexivity|]. split; [discriminate|].
  destruct (setup_hj_reachability_Ret (fun _ _ _ _ => mkValues [] [])
              (fun _ _ => []) false false (Some (constant_values 0)))
    as (target & d & Hsetup & _); [simpl; lia..|].
  eexists _, _. split; [exact Hsetup|]. split; reflexivity.
Qed.

(** ** The unsafe region and the analytic classifier *)

Lemma set_unsafe_region_flag (x_min x_max vel_max theta_min theta_max : R)
    (in_range : bool) :
  use_unsafe_theta
    (set_unsafe_region x_min x_max vel_max theta_min theta_max in_range)
  = negb (bool_decide (theta_min = theta_max)).
Proof.
  unfold set_unsafe_region. simpl. case_decide.
  - rewrite bool_decide_eq_true_2; [reflexivity|assumption].
  - rewrite bool_decide_eq_false_2; [reflexivity|assumption].
Qed.

(** C4 (as the code has it): [set_unsafe_region] records
    [use_unsafe_theta = False] when theta_min equals theta_max and [True]
    when they differ, and nothing reads the flag.  [Balance.is_unsafe]
    consults the [CartPoleDeepreach] object alone: a call of
    [set_unsafe_region] on a task, with whatever bounds, changes none of its
    answers, whatever the classifier of that object does.  On a task that
    [setup_hj_reachability] has built the flag is true, and the recorded
    bounds are those handed to the classifier, -pi/8 and pi/8. *)
Theorem set_unsafe_region_flag_is_not_read :
  forall (x_min x_max vel_max theta_min theta_max : R) (in_range : bool),
    let rgn :=
      set_unsafe_region x_min x_max vel_max theta_min theta_max in_range in
    (theta_min = theta_max -> use_unsafe_theta rgn = false)
    /\ (theta_min <> theta_max -> use_unsafe_theta rgn = true)
    /\ (forall (classifier : utils.CartPoleDeepreach -> State -> bool)
               (self : Balance) (physics : Physics),
          is_unsafe classifier (with_unsafe_region self rgn) physics
          = is_unsafe classifier self physics)
    /\ (forall (hj_solve :
                  utils.CartPoleHJR -> Grid -> list R -> list R -> ValueArray)
               (boundary_fn : utils.CartPoleHJR -> Grid -> list R)
               (sparse swing_up : bool) (cache cache' : option ValueArray)
               (task : Balance) (out : list event),
          setup_hj_reachability hj_solve boundary_fn sparse swing_up cache
          = Ret (task, cache', out) ->
          use_unsafe_theta (region task) = true
          /\ unsafe_theta_min (region task) = - PI / 8
          /\ unsafe_theta_max (region task) = PI / 8
          /\ utils.unsafe_theta_min (utils.dr_kwargs (cartpole_deepreach task))
             = unsafe_theta_min (region task)
          /\ utils.unsafe_theta_max (utils.dr_kwargs (cartpole_deepreach task))
             = unsafe_theta_max (region task)).
Proof.
  intros x_min x_max vel_max theta_min theta_max in_range rgn.
  assert (Hflag : use_unsafe_theta rgn
                  = negb (bool_decide (theta_min = theta_max)))
    by apply set_unsafe_region_flag.
  split; [|split; [|split]].
  - intros Heq. rewrite Hflag, bool_decide_eq_true_2 by assumption.
    reflexivity.
  - intros Hne. rewrite Hflag, bool_decide_eq_false_2 by assumption.
    reflexivity.
  - reflexivity.
  - intros hj_solve boundary_fn sparse swing_up cache cache' task out Hsetup.
    rewrite setup_hj_reachability_unfold in Hsetup. simpl in Hsetup.
    bind_inv Hsetup as target Ht.
    bind_inv Hsetup as means Hm.
    bind_inv Hsetup as d Hd.
    injection Hsetup as <- _ _. simpl.
    pose proof PI_RGT_0 as Hpi.
    split; [|repeat split].
    unfold configured_region, set_unsafe_region. simpl.
    rewrite decide_False by lra. reflexivity.
Qed.

Lemma configured_classifier_upright :
  utils.is_unsafe configured_deepreach (mkState 0 0 0 0) = false.
Proof.
  unfold utils.is_unsafe, utils.angle_condition_enabled, utils.angle_in_range.
  simpl. rewrite Rabs_R0. pose proof PI_RGT_0.
  repeat case_bool_decide; simpl; try reflexivity; lra.
Qed.

Lemma configured_classifier_outside_band (theta : R) :
  theta < - PI / 8 \/ PI / 8 < theta ->
  utils.is_unsafe configured_deepreach (mkState 0 theta 0 0) = true.
Proof.
  intros Hout.
  unfold utils.is_unsafe, utils.angle_condition_enabled, utils.angle_in_range.
  simpl. rewrite Rabs_R0. pose proof PI_RGT_0.
  repeat case_bool_decide; simpl; try reflexivity; lra.
Qed.

(** C6: a task built by [setup_hj_reachability] carries the unsafe region
    x in [-1.5, 1.5], velocity bound 100, angle band [-pi/8, pi/8] with
    [theta_in_range] false; its classifier calls the upright centred state
    (0, 0, 0, 0) safe and the hanging state (0, pi, 0, 0) unsafe, both on the
    state itself and through [Balance.is_unsafe] on a physics holding it. *)
Theorem configured_region_upright_safe_hanging_unsafe :
  forall (hj_solve : utils.CartPoleHJR -> Grid -> list R -> list R -> ValueArray)
         (boundary_fn : utils.CartPoleHJR -> Grid -> list R)
         (sparse swing_up : bool) (cache cache' : option ValueArray)
         (self : Balance) (out : list event),
    setup_hj_reachability hj_solve boundary_fn sparse swing_up cache
    = Ret (self, cache', out) ->
    region self = mkRegion (-1.5) 1.5 100 (- PI / 8) (PI / 8) false true
    /\ utils.dr_kwargs (cartpole_deepreach self) = configured_kwargs
    /\ utils.is_unsafe (cartpole_deepreach self) (mkState 0 0 0 0) = false
    /\ utils.is_unsafe (cartpole_deepreach self) (mkState 0 PI 0 0) = true
    /\ is_unsafe utils.is_unsafe self upright_rest = Ret false
    /\ is_unsafe utils.is_unsafe self hanging_rest = Ret true.
Proof.
  intros hj_solve boundary_fn sparse swing_up cache cache' self out Hsetup.
  rewrite setup_hj_reachability_unfold in Hsetup. simpl in Hsetup.
  bind_inv Hsetup as target Ht.
  bind_inv Hsetup as means Hm.
  bind_inv Hsetup as d Hd.
  injection Hsetup as <- _ _. simpl.
  pose proof PI_RGT_0 as Hpi.
  split.
  { unfold configured_region, set_unsafe_region. simpl.
    rewrite decide_False by lra. reflexivity. }
  split; [reflexivity|].
  split; [apply configured_classifier_upright|].
  split; [apply configured_classifier_outside_band; lra|].
  split.
  - unfold is_unsafe. simpl. rewrite wrap_angle_id by lra.
    f_equal. apply configured_classifier_upright.
  - unfold is_unsafe. simpl. rewrite wrap_angle_PI.
    f_equal. apply configured_classifier_outside_band. lra.
Qed.

(** The task built when no cache file exists and the solver returns two
    constant snapshots classifies the two states as C6 says. *)
Lemma configured_region_witness :
  exists (self : Balance) (out : list event),
    setup_hj_reachability (fun _ _ _ _ => constant_values 1) (fun _ _ => [])
      false true None
    = Ret (self, Some (constant_values 1), out)
    /\ is_unsafe utils.is_unsafe self upright_rest = Ret false
    /\ is_unsafe utils.is_unsafe self hanging_rest = Ret true.
Proof.
  destruct (setup_hj_reachability_Ret (fun _ _ _ _ => constant_values 1)
              (fun _ _ => []) false true None)
    as (target & d & Hsetup & _); [simpl; lia..|].
  eexists _, _. split; [exact Hsetup|].
  pose proof (configured_region_upright_safe_hanging_unsafe _ _ _ _ _ _ _ _ Hsetup)
    as (_ & _ & _ & _ & Hup & Hdown).
  split; assumption.
Defined.

(** C4 as stated fails: on the task built from two constant snapshots, a
    call of [set_unsafe_region] with theta_min = theta_max = 0 clears
    [use_unsafe_theta], and the hinge angle still decides [is_unsafe]: with
    the cart centred and everything at rest, the upright pole is safe and
    the pole turned to pi is unsafe. *)
Lemma cleared_flag_leaves_angle_condition_on :
  exists (task : Balance) (out : list event),
    setup_hj_reachability (solver_returning (constant_values 1))
      (fun _ _ => []) false true None
    = Ret (task, Some (constant_values 1), out)
    /\ unsafe_theta_min equal_theta_region = unsafe_theta_max equal_theta_region
    /\ use_unsafe_theta (region (with_unsafe_region task equal_theta_region))
       = false
    /\ is_unsafe utils.is_unsafe (with_unsafe_region task equal_theta_region)
         upright_rest
       = Ret false
    /\ is_unsafe utils.is_unsafe (with_unsafe_region task equal_theta_region)
         (with_hinge upright_rest PI)
       = Ret true.
Proof.
  destruct (setup_hj_reachability_Ret (solver_returning (constant_values 1))
              (fun _ _ => []) false true None)
    as (target & d & Hsetup & _); [simpl; lia..|].
  eexists _, _. split; [exact Hsetup|].
  pose proof PI_RGT_0 as Hpi.
  split; [reflexivity|]. split.
  { unfold with_unsafe_region, equal_theta_region, set_unsafe_region. simpl.
    rewrite decide_True by reflexivity. reflexivity. }
  split.
  - unfold is_unsafe. simpl. rewrite wrap_angle_id by lra.
    f_equal. apply configured_classifier_upright.
  - unfold is_unsafe. simpl. rewrite wrap_angle_PI.
    f_equal. apply configured_classifier_outside_band. lra.
Qed.

(** The dense reward of [upright_rest] is 1. *)
Lemma upright_rest_reward_witness :
  _get_reward
    (mkBalance false false configured_region configured_deepreach
       configured_hjr configured_grid (constant_values 1) configured_times [1])
    upright_rest false
  = Ret 1.
Proof.
  refine (proj1 (proj2 (dense_reward_upright_rest_is_one _ upright_rest
                          _ _ _ _ _ _ _))).
  - reflexivity.
  - discriminate.
  - repeat constructor.
  - discriminate.
  - repeat constructor.
  - discriminate.
  - repeat constructor.
Defined.

(** The dense reward of [upright_rest] is returned and lies in [0, 1]. *)
Lemma upright_rest_reward_range_witness :
  cosines_in_range upright_rest
  /\ exists r : R,
       _get_reward
         (mkBalance false false configured_region configured_deepreach
            configured_hjr configured_grid (constant_values 1) configured_times
            [1])
         upright_rest false
       = Ret r
       /\ 0 <= r <= 1.
Proof.
  assert (Hcos : cosines_in_range upright_rest).
  { unfold cosines_in_range, pole_angle_cosine, upright_rest, identity_mat.
    simpl. constructor; [simpl; lra|constructor]. }
  split; [exact Hcos|].
  destruct (dense_reward_in_unit_interval
              (mkBalance false false configured_region configured_deepreach
                 configured_hjr configured_grid (constant_values 1)
                 configured_times [1])
              upright_rest Hcos) as [Hrange Hdef].
  destruct (Hdef 0) as [r Hr]; [reflexivity|discriminate..|].
  exists r. split; [exact Hr|].
  destruct (Hrange r Hr) as (f & _ & _ & _ & _ & _ & _ & Hunit).
  exact Hunit.
Defined.

(** ** Observation assembly *)

Lemma set_geom_rgba_Ret (physics physics' : Physics) (name : string) (c : list R) :
  set_geom_rgba physics name c = Ret physics' ->
  physics' = mkPhysics (qpos physics) (qvel physics) (ctrl physics)
               (xmat physics) (<[name := c]> (geom_rgba physics))
  /\ is_Some (geom_rgba physics !! name).
Proof.
  unfold set_geom_rgba. destruct (geom_rgba physics !! name) eqn:E; [|discriminate].
  intros [= <-]. split; [reflexivity|eauto].
Qed.

Lemma set_geom_rgba_defined (physics : Physics) (name : string) (c : list R) :
  is_Some (geom_rgba physics !! name) ->
  set_geom_rgba physics name c
  = Ret (mkPhysics (qpos physics) (qvel physics) (ctrl physics)
           (xmat physics) (<[name := c]> (geom_rgba physics))).
Proof. intros [old E]. unfold set_geom_rgba. rewrite E. reflexivity. Qed.

(** The two assignments of one branch of [get_observation]. *)
Lemma recolour_Ret (physics physics' : Physics) (c : list R) :
  (set_geom_rgba physics "pole_1" c ≫= fun p => set_geom_rgba p "cart" c)
  = Ret physics' ->
  physics' = mkPhysics (qpos physics) (qvel physics) (ctrl physics)
               (xmat physics)
               (<["cart" := c]> (<["pole_1" := c]> (geom_rgba physics))).
Proof.
  intros H. bind_inv H as p Hp.
  apply set_geom_rgba_Ret in Hp as [-> _].
  apply set_geom_rgba_Ret in H as [-> _]. reflexivity.
Qed.

Lemma red_is_not_default : red <> default_color.
Proof. unfold red, default_color. intros [= H]. lra. Qed.

(** C9: [get_observation] returns an observation and the physics, nothing
    else (no termination signal).  Whenever it returns, the positions,
    velocities, controls and orientations of the physics are unchanged, the
    colour table is the old one with ['pole_1'] and ['cart'] overwritten, both
    red when [is_unsafe] holds and both the default colour otherwise (the two
    colours differ), and every other geom keeps its colour.  It returns on
    every physics with at least two positions and two velocities that names
    both geoms. *)
Theorem get_observation_only_recolours :
  forall (classifier : utils.CartPoleDeepreach -> State -> bool)
         (self : Balance) (physics : Physics),
    (forall (obs : list (string * list R)) (physics' : Physics),
        get_observation classifier self physics = Ret (obs, physics') ->
        qpos physics' = qpos physics
        /\ qvel physics' = qvel physics
        /\ ctrl physics' = ctrl physics
        /\ xmat physics' = xmat physics
        /\ exists unsafe : bool,
             is_unsafe classifier self physics = Ret unsafe
             /\ let colour := if unsafe then red else default_color in
                geom_rgba physics'
                = <["cart" := colour]> (<["pole_1" := colour]> (geom_rgba physics))
                /\ geom_rgba physics' !! "pole_1" = Some colour
                /\ geom_rgba physics' !! "cart" = Some colour
                /\ (forall name : string,
                      name <> "pole_1" -> name <> "cart" ->
                      geom_rgba physics' !! name = geom_rgba physics !! name))
    /\ red <> default_color
    /\ ((2 <= List.length (qpos physics))%nat ->
        (2 <= List.length (qvel physics))%nat ->
        is_Some (geom_rgba physics !! "pole_1") ->
        is_Some (geom_rgba physics !! "cart") ->
        exists (obs : list (string * list R)) (physics' : Physics),
          get_observation classifier self physics = Ret (obs, physics')).
Proof.
  intros classifier self physics. split; [|split; [apply red_is_not_default|]].
  - intros obs physics' H. unfold get_observation in H.
    bind_inv H as position Hposition.
    bind_inv H as unsafe Hunsafe.
    bind_inv H as p Hp.
    injection H as <- <-.
    assert (Hp' : p = mkPhysics (qpos physics) (qvel physics) (ctrl physics)
                        (xmat physics)
                        (<["cart" := if unsafe then red else default_color]>
                           (<["pole_1" := if unsafe then red else default_color]>
                              (geom_rgba physics)))).
    { destruct unsafe; apply recolour_Ret in Hp; exact Hp. }
    subst p. simpl. repeat split.
    exists unsafe. split; [exact Hunsafe|]. simpl. split; [reflexivity|].
    split; [|split].
    + rewrite lookup_insert_ne by discriminate. apply lookup_insert_eq.
    + apply lookup_insert_eq.
    + intros name Hpole Hcart.
      rewrite !lookup_insert_ne by congruence. reflexivity.
  - intros Hq Hv Hpole Hcart. unfold get_observation.
    destruct (qpos physics) as [|x [|q l]] eqn:Eq; simpl in Hq; try lia.
    destruct (qvel physics) as [|xd [|td l']] eqn:Ev; simpl in Hv; try lia.
    unfold bounded_position, cart_position, is_unsafe, getitem.
    rewrite Eq, Ev. simpl.
    destruct (classifier (cartpole_deepreach self)
                (mkState x (wrap_angle q) xd td)); simpl.
    + rewrite (set_geom_rgba_defined physics "pole_1" red Hpole). simpl.
      rewrite set_geom_rgba_defined; [simpl; eauto|]. simpl.
      rewrite lookup_insert_ne by discriminate. exact Hcart.
    + rewrite (set_geom_rgba_defined physics "pole_1" default_color Hpole). simpl.
      rewrite set_geom_rgba_defined; [simpl; eauto|]. simpl.
      rewrite lookup_insert_ne by discriminate. exact Hcart.
Qed.

(** ** Episode initialisation *)

Lemma joint_qposadr_slider : joint_qposadr "slider" = Ret 0%nat.
Proof. reflexivity. Qed.

Lemma joint_qposadr_hinge_1 : joint_qposadr "hinge_1" = Ret 1%nat.
Proof. reflexivity. Qed.

Lemma setitem_Ret {A : Type} (l l' : list A) (i : nat) (v : A) :
  setitem l i v = Ret l' -> l' = <[i := v]> l /\ (i < List.length l)%nat.
Proof. unfold setitem. case_decide; [|discriminate]. intros [= <-]. auto. Qed.

Lemma set_named_qpos_Ret (physics physics' : Physics) (name : string)
    (i : nat) (v : R) :
  joint_qposadr name = Ret i ->
  set_named_qpos physics name v = Ret physics' ->
  physics' = mkPhysics (<[i := v]> (qpos physics)) (qvel physics) (ctrl physics)
               (xmat physics) (geom_rgba physics)
  /\ (i < List.length (qpos physics))%nat.
Proof.
  intros Hname H. unfold set_named_qpos in H. rewrite Hname in H. simpl in H.
  bind_inv H as q Hq. apply setitem_Ret in Hq as [-> Hl].
  injection H as <-. auto.
Qed.

Lemma set_qvel_Ret (physics physics' : Physics) (i : nat) (v : R) :
  set_qvel physics i v = Ret physics' ->
  physics' = mkPhysics (qpos physics) (<[i := v]> (qvel physics)) (ctrl physics)
               (xmat physics) (geom_rgba physics)
  /\ (i < List.length (qvel physics))%nat.
Proof.
  intros H. unfold set_qvel in H.
  bind_inv H as q Hq. apply setitem_Ret in Hq as [-> Hl].
  injection H as <-. auto.
Qed.

Lemma write_start_state_Ret (physics physics' : Physics) (s : State) :
  write_start_state physics s = Ret physics' ->
  physics'
  = mkPhysics (<[1%nat := st_theta s]> (<[0%nat := st_x s]> (qpos physics)))
      (<[1%nat := st_thetadot s]> (<[0%nat := st_xdot s]> (qvel physics)))
      (ctrl physics) (xmat physics) (geom_rgba physics)
  /\ (2 <= List.length (qpos physics))%nat
  /\ (2 <= List.length (qvel physics))%nat.
Proof.
  unfold write_start_state. intros H.
  bind_inv H as p0 Hp0.
  apply (set_named_qpos_Ret _ _ _ _ _ joint_qposadr_slider) in Hp0 as [-> Hl0].
  bind_inv H as p1 Hp1.
  apply (set_named_qpos_Ret _ _ _ _ _ joint_qposadr_hinge_1) in Hp1 as [-> Hl1].
  bind_inv H as p2 Hp2. apply set_qvel_Ret in Hp2 as [-> Hl2].
  apply set_qvel_Ret in H as [-> Hl3]. simpl in *.
  rewrite length_insert in Hl1, Hl3.
  split; [reflexivity|]. split; lia.
Qed.

Lemma setitem_defined {A : Type} (l : list A) (i : nat) (v : A) :
  (i < List.length l)%nat -> setitem l i v = Ret (<[i := v]> l).
Proof. intros Hi. unfold setitem. rewrite decide_True by assumption. reflexivity. Qed.

Lemma write_start_state_defined (physics : Physics) (s : State) :
  (2 <= List.length (qpos physics))%nat ->
  (2 <= List.length (qvel physics))%nat ->
  exists physics', write_start_state physics s = Ret physics'.
Proof.
  intros Hq Hv. unfold write_start_state, set_named_qpos, set_qvel.
  rewrite joint_qposadr_slider, joint_qposadr_hinge_1. simpl.
  rewrite setitem_defined by lia. simpl.
  rewrite setitem_defined by (rewrite length_insert; lia). simpl.
  rewrite setitem_defined by lia. simpl.
  rewrite setitem_defined by (rewrite length_insert; lia). simpl. eauto.
Qed.

Lemma write_start_state_not_Fuel (physics : Physics) (s : State) :
  write_start_state physics s <> Fuel.
Proof.
  unfold write_start_state, set_named_qpos, set_qvel, setitem.
  rewrite joint_qposadr_slider, joint_qposadr_hinge_1. simpl.
  repeat (case_decide; simpl); discriminate.
Qed.

Lemma insert_two_lookup (l : list R) (a b : R) :
  (2 <= List.length l)%nat ->
  <[1%nat := b]> (<[0%nat := a]> l) !! 0%nat = Some a
  /\ <[1%nat := b]> (<[0%nat := a]> l) !! 1%nat = Some b.
Proof.
  intros Hl. destruct l as [|x [|y l]]; simpl in Hl; try lia.
  split; reflexivity.
Qed.

(** Reading the state back after the four writes gives the state written,
    also after a parent hook that leaves positions and velocities alone. *)
Lemma physics_state_after_write (base : Physics -> Physics)
    (physics physics' : Physics) (s : State) :
  (forall p, qpos (base p) = qpos p /\ qvel (base p) = qvel p) ->
  write_start_state physics s = Ret physics' ->
  physics_state (base physics') = Ret s.
Proof.
  intros Hbase Hw. apply write_start_state_Ret in Hw as (-> & Hq & Hv).
  unfold physics_state, getitem.
  destruct (Hbase (mkPhysics (<[1%nat := st_theta s]> (<[0%nat := st_x s]> (qpos physics)))
      (<[1%nat := st_thetadot s]> (<[0%nat := st_xdot s]> (qvel physics)))
      (ctrl physics) (xmat physics) (geom_rgba physics))) as [-> ->].
  simpl.
  destruct (insert_two_lookup (qpos physics) (st_x s) (st_theta s) Hq) as [-> ->].
  destruct (insert_two_lookup (qvel physics) (st_xdot s) (st_thetadot s) Hv)
    as [-> ->].
  simpl. destruct s; reflexivity.
Qed.

Section Sampling.

Variable RandomState : Type.
Variable randn : RandomState -> R * RandomState.
Variable uniform : R -> R -> RandomState -> R * RandomState.
Variable uniform_n : R -> R -> nat -> RandomState -> list R * RandomState.
Variable interpolate : Grid -> list R -> State -> R.
Variable base_initialize_episode : Physics -> Physics.

Abbreviation value := (hjr_state_to_value interpolate).
Abbreviation draw := (draw_candidate RandomState randn uniform uniform_n).
Abbreviation body := (loop_body RandomState randn uniform uniform_n interpolate).
Abbreviation while :=
  (while_not_found_start RandomState randn uniform uniform_n interpolate).
Abbreviation init :=
  (initialize_episode RandomState randn uniform uniform_n interpolate
     base_initialize_episode).
Abbreviation rejected := (Trace.rejected interpolate).
Abbreviation finished := (Trace.finished interpolate).
Abbreviation loop_inv := (Trace.loop_inv RandomState interpolate).

(** One iteration: the candidate is accepted exactly when its value is
    non-negative; a rejection either continues the search or, once the
    counter exceeds [max_counter], forces the fallback state and reports
    it. *)
Lemma loop_body_cases (self : Balance) (nv : nat) (l : locals)
    (rng : RandomState) (out : list event)
    (st' : locals * RandomState * list event) :
  body self nv (l, rng, out) = Ret st' ->
  exists (cand : State) (rng' : RandomState) (v : R),
    draw self nv rng = Ret (cand, rng')
    /\ value self cand = Ret v
    /\ ((v >= 0
         /\ st' = (mkLocals (counter l) true (Some cand), rng',
                   out ++ [Candidate cand v]))
        \/ (~ v >= 0 /\ (S (counter l) <= max_counter)%nat
            /\ st' = (mkLocals (S (counter l)) false (Some cand), rng',
                      out ++ [Candidate cand v]))
        \/ (~ v >= 0 /\ (S (counter l) > max_counter)%nat
            /\ exists fv : R,
                 value self fallback_state = Ret fv
                 /\ st' = (mkLocals (S (counter l)) true (Some fallback_state),
                           rng',
                           (out ++ [Candidate cand v]) ++ exhaustion_report fv))).
Proof.
  unfold loop_body. intros H.
  bind_inv H as cr Hdraw. destruct cr as [cand rng'].
  bind_inv H as v Hv.
  exists cand, rng', v. split; [exact Hdraw|]. split; [exact Hv|].
  case_decide as Hge.
  - left. injection H as <-. auto.
  - right. case_decide as Hc.
    + right. bind_inv H as fv Hfv. injection H as <-.
      split; [assumption|]. split; [assumption|]. eauto.
    + left. injection H as <-.
      split; [assumption|]. split; [lia|reflexivity].
Qed.

Lemma rejected_snoc (self : Balance) (rej : list event) (s : State) (v : R) :
  rejected self rej -> value self s = Ret v -> ~ v >= 0 ->
  rejected self (rej ++ [Candidate s v]).
Proof.
  intros Hrej Hv Hneg. apply Forall_app. split; [exact Hrej|].
  constructor; [eauto|constructor].
Qed.

Lemma loop_body_inv (self : Balance) (nv : nat)
    (st st' : locals * RandomState * list event) :
  loop_inv self st -> found_start st.1.1 = false ->
  body self nv st = Ret st' ->
  loop_inv self st'
  /\ (found_start st'.1.1 = false -> counter st'.1.1 = S (counter st.1.1)).
Proof.
  intros Hinv Hnot Hbody.
  destruct Hinv as [c ss rng rej Hrej Hlen Hc|]; [|discriminate].
  apply loop_body_cases in Hbody
    as (cand & rng' & v & _ & Hv & [(Hge & ->)|[(Hneg & Hle & ->)|(Hneg & Hgt & fv & Hfv & ->)]]);
    simpl in *.
  - split; [|discriminate]. constructor. econstructor; eauto. lia.
  - split; [|reflexivity]. constructor; [| |assumption].
    + apply rejected_snoc; assumption.
    + rewrite length_app. simpl. lia.
  - split; [|discriminate]. constructor. constructor; [| |assumption].
    + apply rejected_snoc; assumption.
    + rewrite length_app. simpl. lia.
Qed.

Lemma while_inv (self : Balance) (nv fuel : nat) :
  forall st st' : locals * RandomState * list event,
    loop_inv self st ->
    while fuel self nv st = Ret st' ->
    loop_inv self st' /\ found_start st'.1.1 = true.
Proof.
  induction fuel as [|fuel IH]; intros st st' Hinv Hrun; simpl in Hrun;
    destruct (found_start st.1.1) eqn:Efound.
  - injection Hrun as <-. auto.
  - discriminate.
  - injection Hrun as <-. auto.
  - bind_inv Hrun as st1 Hst1.
    apply (IH st1 st'); [|exact Hrun].
    eapply loop_body_inv; eassumption.
Qed.

(** Neither drawing nor evaluating consumes loop iterations. *)
Lemma loop_body_not_Fuel (self : Balance) (nv : nat)
    (st : locals * RandomState * list event) :
  body self nv st <> Fuel.
Proof.
  destruct st as [[l rng] out]. unfold loop_body, draw_candidate,
    hjr_state_to_value, getitem_last.
  destruct (_swing_up self).
  - destruct (randn rng) as [a r1]. destruct (randn r1) as [b r2].
    destruct (randn r2) as [c r3]. destruct (randn r3) as [d r4]. simpl.
    destruct (last (snapshots (hjr_all_values self))); simpl; [|discriminate].
    repeat case_decide; discriminate.
  - destruct (uniform (-0.1) 0.1 rng) as [a r1].
    destruct (uniform_n (-0.034) 0.034 (nv - 1) r1) as [ths r2].
    destruct (randn r2) as [c r3]. destruct (randn r3) as [d r4].
    simpl. discriminate.
Qed.

(** In balance mode no candidate is ever built: the hinge angle drawn at
    line 359 is an array, and line 364 raises in the first iteration. *)
Lemma draw_candidate_balance (self : Balance) (nv : nat) (rng : RandomState) :
  _swing_up self = false -> draw self nv rng = Exc ValueError.
Proof.
  intros Hmode. unfold draw_candidate. rewrite Hmode.
  destruct (uniform (-0.1) 0.1 rng) as [a r1].
  destruct (uniform_n (-0.034) 0.034 (nv - 1) r1) as [ths r2].
  destruct (randn r2) as [c r3]. destruct (randn r3) as [d r4].
  reflexivity.
Qed.

Lemma initialize_episode_balance (fuel : nat) (self : Balance)
    (physics : Physics) (rng : RandomState) :
  _swing_up self = false ->
  init (S fuel) self physics rng = Exc ValueError.
Proof.
  intros Hmode. unfold initialize_episode. simpl. unfold loop_body.
  rewrite (draw_candidate_balance self (model_nv physics) rng Hmode).
  reflexivity.
Qed.

(** The loop ends within [max_counter + 1 - counter] iterations. *)
Lemma while_terminates (self : Balance) (nv fuel : nat) :
  forall st : locals * RandomState * list event,
    loop_inv self st ->
    (S max_counter - counter st.1.1 <= fuel)%nat ->
    while fuel self nv st <> Fuel.
Proof.
  induction fuel as [|fuel IH]; intros st Hinv Hfuel; simpl;
    destruct (found_start st.1.1) eqn:Efound; try discriminate.
  - exfalso. destruct Hinv as [c ss rng rej Hrej Hlen Hc|]; [|discriminate].
    simpl in Hfuel. lia.
  - destruct (body self nv st) as [st1| |] eqn:Ebody; simpl.
    + destruct (loop_body_inv self nv st st1 Hinv Efound Ebody) as [Hinv1 Hcount].
      destruct (found_start st1.1.1) eqn:Efound1.
      * destruct fuel; simpl; rewrite Efound1; discriminate.
      * apply IH; [assumption|]. rewrite (Hcount eq_refl). lia.
    + discriminate.
    + exfalso. exact (loop_body_not_Fuel self nv st Ebody).
Qed.

(** More fuel does not change a result. *)
Lemma while_fuel_mono (self : Balance) (nv fuel : nat) :
  forall (st : locals * RandomState * list event) (fuel' : nat),
    (fuel <= fuel')%nat ->
    while fuel self nv st <> Fuel ->
    while fuel' self nv st = while fuel self nv st.
Proof.
  induction fuel as [|fuel IH]; intros st fuel' Hle Hrun; simpl in *;
    destruct (found_start st.1.1) eqn:Efound.
  - destruct fuel'; simpl; rewrite Efound; reflexivity.
  - congruence.
  - destruct fuel'; simpl; rewrite Efound; reflexivity.
  - destruct fuel' as [|fuel']; [lia|]. simpl. rewrite Efound.
    destruct (body self nv st) as [st1| |]; simpl in *; try reflexivity.
    apply IH; [lia|assumption].
Qed.

Lemma rejected_candidates (self : Balance) (rej : list event) :
  rejected self rej ->
  List.length (candidates rej) = List.length rej
  /\ (forall s v, (s, v) ∈ candidates rej -> value self s = Ret v /\ ~ v >= 0).
Proof.
  induction 1 as [|e rej (s0 & v0 & -> & Hv0 & Hneg) _ [IHlen IHin]]; simpl.
  - split; [reflexivity|]. intros s v Hin. inversion Hin.
  - split; [f_equal; exact IHlen|].
    intros s v Hin. apply elem_of_cons in Hin as [[= -> ->]|Hin]; auto.
Qed.

Lemma finished_candidates (self : Balance) (out : list event) (s : State) :
  finished self out s -> (List.length (candidates out) <= S max_counter)%nat.
Proof.
  intros [rej s0 v Hrej Hlen _ _|rej fv Hrej Hlen _];
    unfold candidates; rewrite omap_app, length_app;
    destruct (rejected_candidates self rej Hrej) as [Hcount _];
    unfold candidates in Hcount; rewrite Hcount; simpl; lia.
Qed.

Lemma finished_without_report (self : Balance) (out : list event) (s : State) :
  finished self out s ->
  (forall s', PrintMaxCounterExceeded s' ∉ out) ->
  exists (rej : list event) (v : R),
    out = rej ++ [Candidate s v] /\ rejected self rej
    /\ value self s = Ret v /\ v >= 0.
Proof.
  intros [rej s0 v Hrej Hlen Hv Hge|rej fv Hrej Hlen _] Hno.
  - eauto 6.
  - exfalso. apply (Hno fallback_state).
    apply elem_of_app. right. unfold exhaustion_report. apply elem_of_cons. auto.
Qed.

Lemma finished_all_negative (self : Balance) (out : list event) (s : State) :
  finished self out s ->
  (forall s' v, (s', v) ∈ candidates out -> v < 0) ->
  exists (rej : list event) (fv : R),
    s = fallback_state /\ out = rej ++ exhaustion_report fv
    /\ rejected self rej /\ List.length rej = S max_counter
    /\ value self fallback_state = Ret fv.
Proof.
  intros [rej s0 v Hrej Hlen Hv Hge|rej fv Hrej Hlen Hfv] Hneg.
  - exfalso. assert (v < 0); [|lra].
    apply (Hneg s0). unfold candidates. rewrite omap_app.
    apply elem_of_app. right. simpl. apply elem_of_cons. auto.
  - eauto 8.
Qed.

(** What a returning [initialize_episode] has done. *)
Lemma initialize_episode_Ret (fuel : nat) (self : Balance) (physics : Physics)
    (rng : RandomState) (physics' : Physics) (rng' : RandomState)
    (out : list event) :
  init fuel self physics rng = Ret (physics', rng', out) ->
  exists (s : State) (p : Physics),
    finished self out s
    /\ write_start_state physics s = Ret p
    /\ physics' = base_initialize_episode p.
Proof.
  unfold initialize_episode. intros H.
  bind_inv H as st Hwhile. destruct st as [[l r] o].
  apply while_inv in Hwhile as [Hinv Hfound].
  2:{ constructor; [constructor|reflexivity|unfold max_counter; lia]. }
  simpl in Hfound. inversion Hinv as [|c s r0 o0 Hfin]; subst; [discriminate|].
  simpl in H. bind_inv H as p Hp. injection H as <- <- <-.
  exists s, p. auto.
Qed.

(** With enough fuel the method does not run out of iterations, and more
    fuel gives the same result. *)
Lemma initialize_episode_fuel (fuel : nat) (self : Balance) (physics : Physics)
    (rng : RandomState) :
  (S max_counter <= fuel)%nat ->
  init fuel self physics rng <> Fuel
  /\ init fuel self physics rng = init (S max_counter) self physics rng.
Proof.
  intros Hfuel.
  assert (Hinv : loop_inv self (mkLocals 0 false None, rng, [])).
  { constructor; [constructor|reflexivity|unfold max_counter; lia]. }
  assert (Hrun : while (S max_counter) self (model_nv physics)
                   (mkLocals 0 false None, rng, []) <> Fuel).
  { apply while_terminates; [exact Hinv|]. simpl. lia. }
  assert (Heq : while fuel self (model_nv physics) (mkLocals 0 false None, rng, [])
                = while (S max_counter) self (model_nv physics)
                    (mkLocals 0 false None, rng, [])).
  { apply while_fuel_mono; assumption. }
  unfold initialize_episode. rewrite Heq. split; [|reflexivity].
  destruct (while (S max_counter) self (model_nv physics)
              (mkLocals 0 false None, rng, [])) as [[[l r] o]| |];
    simpl; [|discriminate|congruence].
  destruct (start_state l) as [s|]; simpl; [|discriminate].
  pose proof (write_start_state_not_Fuel physics s) as Hw.
  destruct (write_start_state physics s); simpl; [discriminate..|congruence].
Qed.

(** A first candidate of non-negative value ends the loop at once. *)
Lemma first_candidate_accepted (self : Balance) (nv fuel : nat)
    (rng rng' : RandomState) (cand : State) (v : R) :
  draw self nv rng = Ret (cand, rng') ->
  value self cand = Ret v ->
  v >= 0 ->
  while (S fuel) self nv (mkLocals 0 false None, rng, [])
  = Ret (mkLocals 0 true (Some cand), rng', [Candidate cand v]).
Proof.
  intros Hdraw Hv Hge. simpl. unfold loop_body.
  rewrite Hdraw. simpl. rewrite Hv. simpl.
  rewrite decide_True by assumption. simpl.
  destruct fuel; reflexivity.
Qed.

(** When every draw makes a candidate and every state has a negative value,
    the loop returns, through the exhaustion branch. *)
Lemma loop_body_defined (self : Balance) (nv : nat)
    (st : locals * RandomState * list event) :
  (forall r, exists cand r', draw self nv r = Ret (cand, r')) ->
  (forall s, exists v, value self s = Ret v) ->
  exists st', body self nv st = Ret st'.
Proof.
  intros Hdraw Hval. destruct st as [[l r] o]. unfold loop_body.
  destruct (Hdraw r) as (cand & r' & ->). simpl.
  destruct (Hval cand) as [v ->]. simpl.
  destruct (Hval fallback_state) as [fv ->]. simpl.
  repeat case_decide; eauto.
Qed.

Lemma while_defined (self : Balance) (nv fuel : nat) :
  (forall r, exists cand r', draw self nv r = Ret (cand, r')) ->
  (forall s, exists v, value self s = Ret v) ->
  forall (st : locals * RandomState * list event) (e : exn),
    while fuel self nv st <> Exc e.
Proof.
  intros Hdraw Hval. induction fuel as [|fuel IH]; intros st e; simpl;
    destruct (found_start st.1.1); try discriminate.
  destruct (loop_body_defined self nv st Hdraw Hval) as [st' ->]. simpl.
  apply IH.
Qed.

Lemma initialize_episode_defined (fuel : nat) (self : Balance)
    (physics : Physics) (rng : RandomState) :
  (S max_counter <= fuel)%nat ->
  (forall r, exists cand r', draw self (model_nv physics) r = Ret (cand, r')) ->
  (forall s, exists v, value self s = Ret v) ->
  (2 <= List.length (qpos physics))%nat ->
  (2 <= List.length (qvel physics))%nat ->
  exists physics' rng' out,
    init fuel self physics rng = Ret (physics', rng', out).
Proof.
  intros Hfuel Hdraw Hval Hq Hv.
  assert (Hinv : loop_inv self (mkLocals 0 false None, rng, [])).
  { constructor; [constructor|reflexivity|unfold max_counter; lia]. }
  unfold initialize_episode.
  destruct (while fuel self (model_nv physics) (mkLocals 0 false None, rng, []))
    as [[[l r] o]|e|] eqn:Ewhile.
  - apply while_inv in Ewhile as [Hinv' Hfound]; [|exact Hinv].
    simpl in Hfound. inversion Hinv' as [|c s r0 o0 Hfin]; subst; [discriminate|].
    simpl. destruct (write_start_state_defined physics s Hq Hv) as [p ->].
    simpl. eauto.
  - exfalso. exact (while_defined self (model_nv physics) fuel Hdraw Hval _ _ Ewhile).
  - exfalso. revert Ewhile. apply while_terminates; [exact Hinv|]. simpl. lia.
Qed.

End Sampling.

(** ** The claims on episode initialisation *)

Lemma exhaustion_report_longer (out : list event) (c : event) (fv : R) :
  (out ++ [c]) ++ exhaustion_report fv <> out ++ [c].
Proof.
  intros E. apply (f_equal List.length) in E.
  rewrite !length_app in E. simpl in E. lia.
Qed.

(** C1: when [initialize_episode] returns without the exhaustion report
    (the accept path), the state read back from the physics is the last
    candidate drawn, its interpolated terminal value is non-negative, and
    every earlier candidate was rejected with a negative value.  In each
    iteration the loop ends on the candidate, without report, if and only if
    the candidate's value is >= 0.  (The parent hook is assumed to leave
    positions and velocities alone.) *)
Theorem accepted_start_state_is_certified :
  forall (RandomState : Type)
         (randn : RandomState -> R * RandomState)
         (uniform : R -> R -> RandomState -> R * RandomState)
         (uniform_n : R -> R -> nat -> RandomState -> list R * RandomState)
         (interpolate : Grid -> list R -> State -> R)
         (base_initialize_episode : Physics -> Physics)
         (fuel : nat) (self : Balance) (physics physics' : Physics)
         (rng rng' : RandomState) (out : list event),
    (forall p, qpos (base_initialize_episode p) = qpos p
               /\ qvel (base_initialize_episode p) = qvel p) ->
    initialize_episode RandomState randn uniform uniform_n interpolate
      base_initialize_episode fuel self physics rng
    = Ret (physics', rng', out) ->
    (forall s, PrintMaxCounterExceeded s ∉ out) ->
    (exists (s : State) (v : R) (rej : list event),
        physics_state physics' = Ret s
        /\ hjr_state_to_value interpolate self s = Ret v
        /\ 0 <= v
        /\ out = rej ++ [Candidate s v]
        /\ Trace.rejected interpolate self rej)
    /\ (forall (nv : nat) (l : locals) (r : RandomState) (o : list event)
               (st' : locals * RandomState * list event),
          loop_body RandomState randn uniform uniform_n interpolate self nv
            (l, r, o) = Ret st' ->
          exists (cand : State) (r' : RandomState) (v : R),
            draw_candidate RandomState randn uniform uniform_n self nv r
            = Ret (cand, r')
            /\ hjr_state_to_value interpolate self cand = Ret v
            /\ (st' = (mkLocals (counter l) true (Some cand), r',
                       o ++ [Candidate cand v])
                <-> v >= 0)).
Proof.
  intros RandomState randn uniform uniform_n interpolate base fuel self physics
    physics' rng rng' out Hbase Hinit Hno. split.
  - apply initialize_episode_Ret in Hinit as (s & p & Hfin & Hwrite & ->).
    destruct (finished_without_report _ _ _ _ Hfin Hno)
      as (rej & v & -> & Hrej & Hv & Hge).
    exists s, v, rej. split; [|repeat split; try assumption; lra].
    eapply physics_state_after_write; eassumption.
  - intros nv l r o st' Hbody.
    apply loop_body_cases in Hbody
      as (cand & r' & v & Hdraw & Hv
          & [(Hge & ->)|[(Hneg & Hle & ->)|(Hneg & Hgt & fv & Hfv & ->)]]);
      exists cand, r', v; (split; [exact Hdraw|]); (split; [exact Hv|]).
    + split; auto.
    + split; [intros [= ]|intros; contradiction].
    + split; [|intros; contradiction].
      intros E. exfalso. apply (f_equal snd) in E. simpl in E.
      exact (exhaustion_report_longer _ _ _ E).
Qed.

(** C2 (as the code has it): the loop needs no more than
    [max_counter + 1 = 1001] iterations: with that much fuel the model never
    runs out of iterations, more fuel gives the same result, and a returning
    initialisation has drawn and evaluated at most 1001 candidates. *)
Theorem sampling_loop_is_bounded :
  forall (RandomState : Type)
         (randn : RandomState -> R * RandomState)
         (uniform : R -> R -> RandomState -> R * RandomState)
         (uniform_n : R -> R -> nat -> RandomState -> list R * RandomState)
         (interpolate : Grid -> list R -> State -> R)
         (base_initialize_episode : Physics -> Physics)
         (fuel : nat) (self : Balance) (physics : Physics) (rng : RandomState),
    max_counter = 1000%nat
    /\ ((1001 <= fuel)%nat ->
        initialize_episode RandomState randn uniform uniform_n interpolate
          base_initialize_episode fuel self physics rng <> Fuel
        /\ initialize_episode RandomState randn uniform uniform_n interpolate
             base_initialize_episode fuel self physics rng
           = initialize_episode RandomState randn uniform uniform_n interpolate
               base_initialize_episode 1001 self physics rng)
    /\ (forall (physics' : Physics) (rng' : RandomState) (out : list event),
          initialize_episode RandomState randn uniform uniform_n interpolate
            base_initialize_episode fuel self physics rng
          = Ret (physics', rng', out) ->
          (List.length (candidates out) <= 1001)%nat).
Proof.
  intros RandomState randn uniform uniform_n interpolate base fuel self physics
    rng.
  split; [reflexivity|]. split.
  - intros Hfuel. apply initialize_episode_fuel. exact Hfuel.
  - intros physics' rng' out Hinit.
    apply initialize_episode_Ret in Hinit as (s & p & Hfin & _).
    exact (finished_candidates _ _ _ _ Hfin).
Qed.

(** C3 (where the code departs from it): in balance mode the fallback is
    never reached.  The balance branch draws the hinge angle as an array
    (line 359), so building the candidate (line 364) raises in the first
    iteration.  The initialisation of a task in balance mode, such as every
    task built by the [balance] and [balance_sparse] factories, ends in
    [ValueError] whatever the generator draws and whatever the value
    function is: no candidate is evaluated, the counter never advances, and
    nothing is written or printed. *)
Theorem balance_mode_initialisation_raises :
  forall (RandomState : Type)
         (randn : RandomState -> R * RandomState)
         (uniform : R -> R -> RandomState -> R * RandomState)
         (uniform_n : R -> R -> nat -> RandomState -> list R * RandomState)
         (interpolate : Grid -> list R -> State -> R)
         (base_initialize_episode : Physics -> Physics)
         (fuel : nat) (physics : Physics) (rng : RandomState),
    (forall (self : Balance) (sparse : bool),
        initialize_episode RandomState randn uniform uniform_n interpolate
          base_initialize_episode (S fuel) (with_flags self false sparse)
          physics rng
        = Exc ValueError)
    /\ (forall (hj_solve :
                  utils.CartPoleHJR -> Grid -> list R -> list R -> ValueArray)
               (boundary_fn : utils.CartPoleHJR -> Grid -> list R)
               (cache cache' : option ValueArray) (task : Balance)
               (out : list event),
          balance hj_solve boundary_fn cache = Ret (task, cache', out)
          \/ balance_sparse hj_solve boundary_fn cache = Ret (task, cache', out) ->
          initialize_episode RandomState randn uniform uniform_n interpolate
            base_initialize_episode (S fuel) task physics rng
          = Exc ValueError).
Proof.
  intros RandomState randn uniform uniform_n interpolate base fuel physics rng.
  split.
  - intros self sparse. apply initialize_episode_balance. reflexivity.
  - intros hj_solve boundary_fn cache cache' task out Hbuilt.
    apply initialize_episode_balance.
    unfold balance, balance_sparse, Balance_init in Hbuilt.
    destruct Hbuilt as [H|H];
      rewrite setup_hj_reachability_unfold in H; simpl in H;
      bind_inv H as target Ht; bind_inv H as means Hm; bind_inv H as d Hd;
      injection H as <- _ _; reflexivity.
Qed.

(** ** Runs of the concrete instance *)

Lemma constant_task_value (swing_up : bool) (v : R) (s : State) :
  hjr_state_to_value point_interpolate (constant_task swing_up v) s = Ret v.
Proof. reflexivity. Qed.

Lemma constant_task_draw (v : R) (r : unit) :
  exists cand r',
    draw_candidate unit zero_randn low_uniform low_uniform_n
      (constant_task true v) (model_nv upright_rest) r
    = Ret (cand, r').
Proof. simpl; eauto. Qed.

(** With a value function that is negative everywhere, the swing-up
    initialisation returns after 1001 rejected candidates. *)
Lemma always_negative_run :
  exists (physics' : Physics) (out : list event),
    initialize_episode unit zero_randn low_uniform low_uniform_n
      point_interpolate no_hook 1001 (constant_task true (-1)) upright_rest tt
    = Ret (physics', tt, out)
    /\ List.length (candidates out) = 1001%nat
    /\ (forall s v, (s, v) ∈ candidates out -> v < 0).
Proof.
  destruct (initialize_episode_defined unit zero_randn low_uniform low_uniform_n
              point_interpolate no_hook 1001 (constant_task true (-1))
              upright_rest tt)
    as (physics' & [] & out & Hinit).
  - unfold max_counter. lia.
  - apply constant_task_draw.
  - intros s. exists (-1). apply constant_task_value.
  - simpl. lia.
  - simpl. lia.
  - exists physics', out. split; [exact Hinit|].
    apply initialize_episode_Ret in Hinit as (s & p & Hfin & _).
    destruct Hfin as [rej s v Hrej Hlen Hv Hge|rej fv Hrej Hlen Hfv].
    + exfalso. rewrite constant_task_value in Hv. injection Hv as <-. lra.
    + destruct (rejected_candidates _ _ _ Hrej) as [Hcount Hin].
      unfold candidates in *. rewrite omap_app, length_app, Hcount, Hlen.
      simpl. rewrite app_nil_r. split; [reflexivity|].
      intros s v Hsv. destruct (Hin s v Hsv) as [Hv _].
      rewrite constant_task_value in Hv. injection Hv as <-. lra.
Qed.

(** C2 as stated fails: a run whose candidates are all rejected draws and
    evaluates 1001 of them, not at most 1000, before it takes the fallback
    branch. *)
Lemma rejection_budget_draws_1001_candidates :
  exists (physics' : Physics) (out : list event),
    initialize_episode unit zero_randn low_uniform low_uniform_n
      point_interpolate no_hook 1001 (constant_task true (-1)) upright_rest tt
    = Ret (physics', tt, out)
    /\ List.length (candidates out) = 1001%nat
    /\ ~ (List.length (candidates out) <= 1000)%nat.
Proof.
  destruct always_negative_run as (physics' & out & Hinit & Hcount & _).
  exists physics', out. split; [exact Hinit|]. split; [exact Hcount|]. lia.
Qed.

(** With a value function that is 1 everywhere the first candidate is
    accepted and read back from the physics. *)
Lemma accepted_start_state_witness :
  exists (physics' : Physics) (out : list event) (s : State),
    initialize_episode unit zero_randn low_uniform low_uniform_n
      point_interpolate no_hook 1 (constant_task true 1) upright_rest tt
    = Ret (physics', tt, out)
    /\ physics_state physics' = Ret s
    /\ hjr_state_to_value point_interpolate (constant_task true 1) s = Ret 1
    /\ 0 <= 1.
Proof.
  destruct (constant_task_draw 1 tt) as (cand & [] & Hdraw).
  pose proof (first_candidate_accepted unit zero_randn low_uniform low_uniform_n
                point_interpolate (constant_task true 1) (model_nv upright_rest)
                0 tt tt cand 1 Hdraw (constant_task_value true 1 cand)
                ltac:(lra)) as Hwhile.
  destruct (write_start_state_defined upright_rest cand) as [p Hp];
    [simpl; lia..|].
  assert (Hinit : initialize_episode unit zero_randn low_uniform low_uniform_n
                    point_interpolate no_hook 1 (constant_task true 1) upright_rest tt
                  = Ret (no_hook p, tt, [Candidate cand 1])).
  { unfold initialize_episode. rewrite Hwhile. cbn -[write_start_state].
    rewrite Hp. reflexivity. }
  destruct (accepted_start_state_is_certified unit zero_randn low_uniform
              low_uniform_n point_interpolate no_hook 1 (constant_task true 1)
              upright_rest (no_hook p) tt tt [Candidate cand 1])
    as [(s & v & rej & Hstate & Hv & Hge & _) _]; auto.
  - intros s Hin. apply elem_of_cons in Hin as [Hin|Hin]; [discriminate|].
    inversion Hin.
  - exists (no_hook p), [Candidate cand 1], s. split; [exact Hinit|].
    split; [exact Hstate|].
    split; [apply constant_task_value|lra].
Defined.

(** * Further properties of the code *)

(** ** The runtime classifier *)

(** X3: [Balance.is_unsafe] reads the first two positions and the first two
    velocities only: physics states that agree there get the same answer,
    whatever their further poles, controls, orientations and colours. *)
Theorem is_unsafe_reads_cart_and_first_pole :
  forall (classifier : utils.CartPoleDeepreach -> State -> bool)
         (self : Balance) (physics1 physics2 : Physics),
    take 2 (qpos physics1) = take 2 (qpos physics2) ->
    take 2 (qvel physics1) = take 2 (qvel physics2) ->
    is_unsafe classifier self physics1 = is_unsafe classifier self physics2.
Proof.
  intros classifier self physics1 physics2 Hq Hv.
  assert (Hlq : forall i, (i < 2)%nat -> qpos physics1 !! i = qpos physics2 !! i).
  { intros i Hi. rewrite <- (lookup_take_lt (qpos physics1) 2 i Hi), Hq.
    apply lookup_take_lt, Hi. }
  assert (Hlv : forall i, (i < 2)%nat -> qvel physics1 !! i = qvel physics2 !! i).
  { intros i Hi. rewrite <- (lookup_take_lt (qvel physics1) 2 i Hi), Hv.
    apply lookup_take_lt, Hi. }
  unfold is_unsafe, getitem.
  rewrite (Hlq 0%nat), (Hlq 1%nat), (Hlv 0%nat), (Hlv 1%nat) by lia.
  reflexivity.
Qed.

(** The one-pole and the two-pole physics at rest get the same verdict. *)
Lemma is_unsafe_reads_cart_and_first_pole_witness :
  is_unsafe utils.is_unsafe (constant_task true 1) upright_rest
  = is_unsafe utils.is_unsafe (constant_task true 1) two_pole_rest.
Proof.
  apply (is_unsafe_reads_cart_and_first_pole utils.is_unsafe
           (constant_task true 1) upright_rest two_pole_rest); reflexivity.
Defined.

(** X4: [Balance.is_unsafe] returns a verdict exactly on a physics with at
    least two positions and two velocities; on any other it raises
    [IndexError]. *)
Theorem is_unsafe_index_error :
  forall (classifier : utils.CartPoleDeepreach -> State -> bool)
         (self : Balance) (physics : Physics),
    ((2 <= List.length (qpos physics))%nat
     /\ (2 <= List.length (qvel physics))%nat ->
     exists unsafe : bool, is_unsafe classifier self physics = Ret unsafe)
    /\ (~ ((2 <= List.length (qpos physics))%nat
           /\ (2 <= List.length (qvel physics))%nat) ->
        is_unsafe classifier self physics = Exc IndexError).
Proof.
  intros classifier self physics. unfold is_unsafe, getitem.
  destruct (qpos physics) as [|x [|q l]]; simpl;
    (split; [intros [Hq Hv]; simpl in *; try lia|intros Hnot]);
    try reflexivity.
  - destruct (qvel physics) as [|xd [|td l']]; simpl in *; try lia. eauto.
  - destruct (qvel physics) as [|xd [|td l']]; simpl in *; try reflexivity.
    exfalso. apply Hnot. split; lia.
Qed.

(** ** The value function store *)

Lemma last_zip_shift {A B : Type} (f : A -> A -> B) (t : list A) (x b1 b2 : A) :
  last (zip_with f ((t ++ [b1]) ++ [b2]) (x :: (t ++ [b1]) ++ [b2]))
  = Some (f b2 b1).
Proof.
  revert x. induction t as [|y t IH]; intros x; [reflexivity|].
  change (zip_with f (((y :: t) ++ [b1]) ++ [b2])
            (x :: ((y :: t) ++ [b1]) ++ [b2]))
    with (f y x :: zip_with f ((t ++ [b1]) ++ [b2]) (y :: (t ++ [b1]) ++ [b2])).
  rewrite last_cons, IH. reflexivity.
Qed.

Lemma diff_axis0_last (pre : list (list R)) (b1 b2 : list R) :
  last (diff_axis0 (pre ++ [b1; b2])) = Some (zip_with Rminus b2 b1).
Proof.
  unfold diff_axis0. destruct pre as [|x pre]; [reflexivity|].
  change ((x :: pre) ++ [b1; b2]) with (x :: pre ++ [b1; b2]).
  replace (pre ++ [b1; b2]) with ((pre ++ [b1]) ++ [b2])
    by (rewrite <- app_assoc; reflexivity).
  simpl drop. apply last_zip_shift.
Qed.

Lemma zip_with_Rminus_diag (b : list R) :
  Forall (fun x => x = 0) (zip_with Rminus b b).
Proof. induction b as [|x b IH]; constructor; [ring|exact IH]. Qed.

Lemma nth_zeros (l : list R) (i : nat) :
  Forall (fun x => x = 0) l -> nth i l 0 = 0.
Proof.
  intros Hl. revert i. induction Hl as [|x l -> _ IH]; intros [|i];
    simpl; auto.
Qed.

Lemma Rsum_zeros (l : list R) : Forall (fun x => x = 0) l -> Rsum l = 0.
Proof.
  induction 1 as [|x l -> _ IH]; [reflexivity|].
  change (Rsum (0 :: l)) with (0 + Rsum l). rewrite IH. ring.
Qed.

Lemma block_mean_zeros (lat : list nat) (block : list R) :
  Forall (fun x => x = 0) block ->
  (foldr Nat.mul 1%nat (take 4 lat) <> 0%nat ->
   Forall (fun x => x = Some 0) (negative (block_mean lat block)))
  /\ (foldr Nat.mul 1%nat (take 4 lat) = 0%nat ->
      Forall (fun x => x = None) (negative (block_mean lat block)))
  /\ List.length (negative (block_mean lat block))
     = foldr Nat.mul 1%nat (drop 4 lat).
Proof.
  intros Hzero. unfold negative, block_mean. split; [|split].
  - intros Hn. apply Forall_fmap, Forall_fmap, Forall_forall. intros r _.
    simpl. rewrite decide_False by assumption. simpl. f_equal.
    rewrite Rsum_zeros.
    + unfold Rdiv. ring.
    + apply Forall_fmap, Forall_forall. intros i _. simpl.
      apply nth_zeros, Hzero.
  - intros Hn. apply Forall_fmap, Forall_fmap, Forall_forall. intros r _.
    simpl. rewrite decide_True by assumption. reflexivity.
  - rewrite !length_map, length_seq. reflexivity.
Qed.

(** X5: the cache file round-trips.  A construction without a cache file
    stores the solver's array; a second construction from the stored file,
    with any solver, returns the same task, prints the same diagnostic and
    leaves the file as it is. *)
Theorem cache_round_trip :
  forall (hj_solve hj_solve' :
            utils.CartPoleHJR -> Grid -> list R -> list R -> ValueArray)
         (boundary_fn boundary_fn' : utils.CartPoleHJR -> Grid -> list R)
         (sparse swing_up : bool) (self : Balance)
         (cache' : option ValueArray) (out : list event),
    setup_hj_reachability hj_solve boundary_fn sparse swing_up None
    = Ret (self, cache', out) ->
    cache' = Some (hjr_all_values self)
    /\ hjr_all_values self
       = hj_solve configured_hjr configured_grid configured_times
           (boundary_fn configured_hjr configured_grid)
    /\ setup_hj_reachability hj_solve' boundary_fn' sparse swing_up cache'
       = Ret (self, cache', out).
Proof.
  intros hj_solve hj_solve' boundary_fn boundary_fn' sparse swing_up self cache'
    out Hfirst.
  pose proof Hfirst as Hrun.
  rewrite setup_hj_reachability_unfold in Hrun. simpl in Hrun.
  bind_inv Hrun as target Ht.
  bind_inv Hrun as means Hm.
  bind_inv Hrun as d Hd.
  injection Hrun as <- <- <-. simpl.
  split; [reflexivity|]. split; [reflexivity|].
  rewrite setup_hj_reachability_unfold. simpl.
  rewrite setup_hj_reachability_unfold in Hfirst. exact Hfirst.
Qed.

(** A solver returning two constant snapshots fills the cache, and the cache
    then serves a construction whose solver returns an empty array. *)
Lemma cache_round_trip_witness :
  exists (self : Balance) (out : list event),
    setup_hj_reachability (solver_returning (constant_values 1))
      (fun _ _ => []) false true None
    = Ret (self, Some (constant_values 1), out)
    /\ setup_hj_reachability (solver_returning (mkValues [] []))
         (fun _ _ => [0]) false true (Some (constant_values 1))
       = Ret (self, Some (constant_values 1), out).
Proof.
  destruct (setup_hj_reachability_Ret (solver_returning (constant_values 1))
              (fun _ _ => []) false true None)
    as (target & d & Hsetup & _); [simpl; lia..|].
  eexists _, _. split; [exact Hsetup|].
  exact (proj2 (proj2 (cache_round_trip _ (solver_returning (mkValues [] []))
                         _ (fun _ _ => [0]) _ _ _ _ _ Hsetup))).
Defined.

(** X6: when the cache file exists the solver and the boundary function play
    no role: any two solvers give the same result, the loaded array is the
    task's value function, and the file is not rewritten. *)
Theorem cache_overrides_solver :
  forall (hj_solve hj_solve' :
            utils.CartPoleHJR -> Grid -> list R -> list R -> ValueArray)
         (boundary_fn boundary_fn' : utils.CartPoleHJR -> Grid -> list R)
         (sparse swing_up : bool) (a : ValueArray),
    setup_hj_reachability hj_solve boundary_fn sparse swing_up (Some a)
    = setup_hj_reachability hj_solve' boundary_fn' sparse swing_up (Some a)
    /\ (forall (self : Balance) (cache' : option ValueArray) (out : list event),
          setup_hj_reachability hj_solve boundary_fn sparse swing_up (Some a)
          = Ret (self, cache', out) ->
          cache' = Some a /\ hjr_all_values self = a).
Proof.
  intros hj_solve hj_solve' boundary_fn boundary_fn' sparse swing_up a. split.
  - rewrite !setup_hj_reachability_unfold. reflexivity.
  - intros self cache' out Hrun.
    rewrite setup_hj_reachability_unfold in Hrun. simpl in Hrun.
    bind_inv Hrun as target Ht.
    bind_inv Hrun as means Hm.
    bind_inv Hrun as d Hd.
    injection Hrun as <- <- <-. split; reflexivity.
Qed.

(** X7: on a task that [setup_hj_reachability] has built, the safety value
    query never raises: it is the interpolation of the stored terminal
    snapshot [hjr_target_values] on the configured grid. *)
Theorem constructed_task_value_query :
  forall (hj_solve : utils.CartPoleHJR -> Grid -> list R -> list R -> ValueArray)
         (boundary_fn : utils.CartPoleHJR -> Grid -> list R)
         (sparse swing_up : bool) (cache cache' : option ValueArray)
         (self : Balance) (out : list event),
    setup_hj_reachability hj_solve boundary_fn sparse swing_up cache
    = Ret (self, cache', out) ->
    last (snapshots (hjr_all_values self)) = Some (hjr_target_values self)
    /\ forall (interpolate : Grid -> list R -> State -> R) (s : State),
         hjr_state_to_value interpolate self s
         = Ret (interpolate configured_grid (hjr_target_values self) s).
Proof.
  intros hj_solve boundary_fn sparse swing_up cache cache' self out Hrun.
  rewrite setup_hj_reachability_unfold in Hrun. simpl in Hrun.
  bind_inv Hrun as target Ht.
  bind_inv Hrun as means Hm.
  bind_inv Hrun as d Hd.
  injection Hrun as <- _ _. simpl.
  assert (Hlast : last (snapshots (selected_values hj_solve boundary_fn cache))
                  = Some target).
  { unfold getitem_last in Ht.
    destruct (last (snapshots (selected_values hj_solve boundary_fn cache)));
      congruence. }
  split; [exact Hlast|].
  intros interpolate s. unfold hjr_state_to_value, getitem_last. simpl.
  rewrite Hlast. reflexivity.
Qed.

(** The task built from two constant snapshots answers every query with the
    interpolation of the constant block. *)
Lemma constructed_task_value_query_witness :
  exists (self : Balance) (out : list event),
    setup_hj_reachability (solver_returning (constant_values 1))
      (fun _ _ => []) false true None
    = Ret (self, Some (constant_values 1), out)
    /\ hjr_state_to_value point_interpolate self fallback_state
       = Ret (point_interpolate configured_grid (hjr_target_values self)
                fallback_state).
Proof.
  destruct (setup_hj_reachability_Ret (solver_returning (constant_values 1))
              (fun _ _ => []) false true None)
    as (target & d & Hsetup & _); [simpl; lia..|].
  eexists _, _. split; [exact Hsetup|].
  exact (proj2 (constructed_task_value_query _ _ _ _ _ _ _ _ Hsetup)
           point_interpolate fallback_state).
Defined.

(** X8: the convergence diagnostic of a converged value function is zero:
    when the last two snapshots of the array in use coincide, the
    construction prints a final difference with one entry per index of the
    lattice axes beyond the fourth, followed by the blank lines.  The entries
    are all 0 when none of the first four lattice axes is empty; when one of
    them is empty the mean has nothing to average and the entries are all
    nan. *)
Theorem converged_values_print_zero_difference :
  forall (hj_solve : utils.CartPoleHJR -> Grid -> list R -> list R -> ValueArray)
         (boundary_fn : utils.CartPoleHJR -> Grid -> list R)
         (sparse swing_up : bool) (cache cache' : option ValueArray)
         (self : Balance) (out : list event)
         (pre : list (list R)) (b : list R),
    setup_hj_reachability hj_solve boundary_fn sparse swing_up cache
    = Ret (self, cache', out) ->
    snapshots (hjr_all_values self) = pre ++ [b; b] ->
    exists d : list (option R),
      out = [PrintFinalDiff d; PrintNewlines 4]
      /\ List.length d
         = foldr Nat.mul 1%nat (drop 4 (lattice (hjr_all_values self)))
      /\ (foldr Nat.mul 1%nat (take 4 (lattice (hjr_all_values self))) <> 0%nat ->
          Forall (fun x => x = Some 0) d)
      /\ (foldr Nat.mul 1%nat (take 4 (lattice (hjr_all_values self))) = 0%nat ->
          Forall (fun x => x = None) d).
Proof.
  intros hj_solve boundary_fn sparse swing_up cache cache' self out pre b
    Hrun Hsnaps.
  rewrite setup_hj_reachability_unfold in Hrun. simpl in Hrun.
  bind_inv Hrun as target Ht.
  bind_inv Hrun as means Hm.
  bind_inv Hrun as d Hd.
  injection Hrun as <- _ <-. simpl in *.
  unfold mean_axes_1_4 in Hm. case_decide as Hrank; [|discriminate].
  injection Hm as <-.
  exists d. split; [reflexivity|].
  unfold getitem_last in Hd. rewrite Hsnaps, !fmap_last, diff_axis0_last in Hd.
  simpl in Hd. injection Hd as <-.
  destruct (block_mean_zeros
              (lattice (selected_values hj_solve boundary_fn cache))
              (zip_with Rminus b b) (zip_with_Rminus_diag b))
    as (Hzero & Hnan & Hlen).
  split; [exact Hlen|]. split; assumption.
Qed.

(** Two equal constant snapshots on the one-point lattice print the single
    difference 0; two snapshots of shape (0, 1, 1, 1) print a single nan. *)
Lemma converged_values_print_zero_difference_witness :
  (exists (self : Balance) (d : list (option R)),
      setup_hj_reachability (solver_returning (constant_values 1))
        (fun _ _ => []) false true None
      = Ret (self, Some (constant_values 1),
             [PrintFinalDiff d; PrintNewlines 4])
      /\ d = [Some 0])
  /\ (exists (self : Balance) (d : list (option R)),
        setup_hj_reachability (solver_returning empty_axis_values)
          (fun _ _ => []) false true None
        = Ret (self, Some empty_axis_values,
               [PrintFinalDiff d; PrintNewlines 4])
        /\ d = [None]).
Proof.
  split.
  - destruct (setup_hj_reachability_Ret (solver_returning (constant_values 1))
                (fun _ _ => []) false true None)
      as (target & d & Hsetup & _); [simpl; lia..|].
    destruct (converged_values_print_zero_difference _ _ _ _ _ _ _ _ [] [1]
                Hsetup eq_refl) as (d' & Hout & Hlen & Hzero & _).
    injection Hout as ->.
    eexists _, d'. split; [exact Hsetup|].
    simpl in Hlen, Hzero.
    destruct d' as [|x [|y d']]; try discriminate.
    apply Forall_cons in Hzero as [-> _]; [reflexivity|discriminate].
  - destruct (setup_hj_reachability_Ret (solver_returning empty_axis_values)
                (fun _ _ => []) false true None)
      as (target & d & Hsetup & _); [simpl; lia..|].
    destruct (converged_values_print_zero_difference _ _ _ _ _ _ _ _ [] []
                Hsetup eq_refl) as (d' & Hout & Hlen & _ & Hnan).
    injection Hout as ->.
    eexists _, d'. split; [exact Hsetup|].
    simpl in Hlen, Hnan.
    destruct d' as [|x [|y d']]; try discriminate.
    apply Forall_cons in Hnan as [-> _]; reflexivity.
Defined.

(** ** More on episode initialisation *)

(** The concrete swing-up task whose value function is 1 everywhere accepts
    its first candidate on any physics with a cart and a hinge. *)
Lemma always_safe_run (physics : Physics) :
  (2 <= List.length (qpos physics))%nat ->
  (2 <= List.length (qvel physics))%nat ->
  exists (cand : State) (p : Physics),
    draw_candidate unit zero_randn low_uniform low_uniform_n
      (constant_task true 1) (model_nv physics) tt
    = Ret (cand, tt)
    /\ write_start_state physics cand = Ret p
    /\ initialize_episode unit zero_randn low_uniform low_uniform_n
         point_interpolate no_hook 1 (constant_task true 1) physics tt
       = Ret (no_hook p, tt, [Candidate cand 1]).
Proof.
  intros Hq Hv.
  assert (Hdraw : exists cand,
             draw_candidate unit zero_randn low_uniform low_uniform_n
               (constant_task true 1) (model_nv physics) tt
             = Ret (cand, tt)) by (simpl; eauto).
  destruct Hdraw as [cand Hdraw].
  destruct (write_start_state_defined physics cand Hq Hv) as [p Hp].
  exists cand, p. split; [exact Hdraw|]. split; [exact Hp|].
  pose proof (first_candidate_accepted unit zero_randn low_uniform low_uniform_n
                point_interpolate (constant_task true 1) (model_nv physics)
                0 tt tt cand 1 Hdraw (constant_task_value true 1 cand)
                ltac:(lra)) as Hwhile.
  unfold initialize_episode. rewrite Hwhile. cbn -[write_start_state].
  rewrite Hp. reflexivity.
Qed.

(** X20: when [initialize_episode] returns and every candidate it evaluated
    had a negative value, the physics holds exactly the
    state (x=0, theta=pi, xdot=0, thetadot=0), 1001 candidates were drawn,
    and the trace ends with the report of the event: the forced state, its
    value and the blank lines.  (The parent hook is assumed to leave
    positions and velocities alone.) *)
Theorem exhausted_budget_falls_back :
  forall (RandomState : Type)
         (randn : RandomState -> R * RandomState)
         (uniform : R -> R -> RandomState -> R * RandomState)
         (uniform_n : R -> R -> nat -> RandomState -> list R * RandomState)
         (interpolate : Grid -> list R -> State -> R)
         (base_initialize_episode : Physics -> Physics)
         (fuel : nat) (self : Balance) (physics physics' : Physics)
         (rng rng' : RandomState) (out : list event),
    (forall p, qpos (base_initialize_episode p) = qpos p
               /\ qvel (base_initialize_episode p) = qvel p) ->
    initialize_episode RandomState randn uniform uniform_n interpolate
      base_initialize_episode fuel self physics rng
    = Ret (physics', rng', out) ->
    (forall s v, (s, v) ∈ candidates out -> v < 0) ->
    physics_state physics' = Ret fallback_state
    /\ fallback_state = mkState 0 PI 0 0
    /\ List.length (candidates out) = 1001%nat
    /\ (exists (rej : list event) (fv : R),
          out = rej ++ [PrintMaxCounterExceeded fallback_state;
                        PrintStartStateValue fv; PrintNewlines 3]
          /\ hjr_state_to_value interpolate self fallback_state = Ret fv)
    /\ PrintMaxCounterExceeded fallback_state ∈ out.
Proof.
  intros RandomState randn uniform uniform_n interpolate base fuel self physics
    physics' rng rng' out Hbase Hinit Hneg.
  apply initialize_episode_Ret in Hinit as (s & p & Hfin & Hwrite & ->).
  destruct (finished_all_negative _ _ _ _ Hfin Hneg)
    as (rej & fv & -> & -> & Hrej & Hlen & Hfv).
  split; [eapply physics_state_after_write; eassumption|].
  split; [unfold fallback_state; f_equal; lra|].
  split; [|split].
  - unfold candidates. rewrite omap_app, length_app.
    destruct (rejected_candidates _ _ _ Hrej) as [Hcount _].
    unfold candidates in Hcount. rewrite Hcount, Hlen. reflexivity.
  - exists rej, fv. split; [reflexivity|exact Hfv].
  - apply elem_of_app. right. apply elem_of_cons. auto.
Qed.

(** With a value function that is -1 everywhere the swing-up run ends in the
    fallback state and reports it. *)
Lemma exhausted_budget_witness :
  exists (physics' : Physics) (out : list event),
    initialize_episode unit zero_randn low_uniform low_uniform_n
      point_interpolate no_hook 1001 (constant_task true (-1)) upright_rest tt
    = Ret (physics', tt, out)
    /\ physics_state physics' = Ret fallback_state
    /\ PrintMaxCounterExceeded fallback_state ∈ out.
Proof.
  destruct always_negative_run as (physics' & out & Hinit & _ & Hneg).
  exists physics', out. split; [exact Hinit|].
  destruct (exhausted_budget_falls_back unit zero_randn low_uniform
              low_uniform_n point_interpolate no_hook 1001
              (constant_task true (-1)) upright_rest physics' tt tt out)
    as (Hstate & _ & _ & _ & Hreport); auto.
Defined.

Section MoreSampling.

Variable RandomState : Type.
Variable randn : RandomState -> R * RandomState.
Variable uniform : R -> R -> RandomState -> R * RandomState.
Variable uniform_n : R -> R -> nat -> RandomState -> list R * RandomState.
Variable interpolate : Grid -> list R -> State -> R.
Variable base_initialize_episode : Physics -> Physics.

(** X9: before it hands over to the parent hook, [initialize_episode] has
    written the cart position, the first hinge angle and the first two
    velocities, and nothing else: further poles keep their positions and
    velocities, and controls, orientations and colours are untouched. *)
Theorem initialize_episode_writes_four_entries :
  forall (fuel : nat) (self : Balance) (physics physics' : Physics)
         (rng rng' : RandomState) (out : list event),
    initialize_episode RandomState randn uniform uniform_n interpolate
      base_initialize_episode fuel self physics rng
    = Ret (physics', rng', out) ->
    exists (s : State) (p : Physics),
      physics' = base_initialize_episode p
      /\ physics_state p = Ret s
      /\ ctrl p = ctrl physics
      /\ xmat p = xmat physics
      /\ geom_rgba p = geom_rgba physics
      /\ List.length (qpos p) = List.length (qpos physics)
      /\ List.length (qvel p) = List.length (qvel physics)
      /\ (forall i : nat, (2 <= i)%nat ->
            qpos p !! i = qpos physics !! i /\ qvel p !! i = qvel physics !! i).
Proof.
  intros fuel self physics physics' rng rng' out Hinit.
  apply initialize_episode_Ret in Hinit as (s & p & _ & Hwrite & ->).
  exists s, p. split; [reflexivity|].
  split.
  { apply (physics_state_after_write (fun q => q) physics p s); auto. }
  apply write_start_state_Ret in Hwrite as (-> & Hq & Hv). simpl.
  repeat split; try (rewrite !length_insert; reflexivity).
  - rewrite !list_lookup_insert_ne by lia. reflexivity.
  - rewrite !list_lookup_insert_ne by lia. reflexivity.
Qed.

(** X10: swing-up initialisation always returns.  For a task in swing-up
    mode that holds at least one snapshot and a physics with a cart and a
    hinge, whatever the generator draws and however many poles there are,
    1001 iterations are enough and no exception is raised. *)
Theorem swing_up_initialisation_returns :
  forall (fuel : nat) (self : Balance) (physics : Physics) (rng : RandomState),
    _swing_up self = true ->
    snapshots (hjr_all_values self) <> [] ->
    (2 <= List.length (qpos physics))%nat ->
    (2 <= List.length (qvel physics))%nat ->
    (1001 <= fuel)%nat ->
    exists (physics' : Physics) (rng' : RandomState) (out : list event),
      initialize_episode RandomState randn uniform uniform_n interpolate
        base_initialize_episode fuel self physics rng
      = Ret (physics', rng', out).
Proof.
  intros fuel self physics rng Hmode Hsnaps Hq Hv Hfuel.
  apply initialize_episode_defined; try assumption.
  - intros r. unfold draw_candidate. rewrite Hmode.
    destruct (randn r) as [a r1]. destruct (randn r1) as [b r2].
    destruct (randn r2) as [c r3]. destruct (randn r3) as [d r4].
    simpl. eauto.
  - intros s. unfold hjr_state_to_value.
    destruct (getitem_last_nonempty _ Hsnaps) as [terminal ->]. simpl. eauto.
Qed.

(** X11: a first candidate of non-negative value is taken at once: the run
    evaluates that one candidate, prints nothing, leaves the generator where
    the draw left it, and hands the physics with the candidate written to the
    parent hook. *)
Theorem first_safe_candidate_is_taken :
  forall (fuel : nat) (self : Balance) (physics p : Physics)
         (rng rng' : RandomState) (cand : State) (v : R),
    draw_candidate RandomState randn uniform uniform_n self (model_nv physics)
      rng
    = Ret (cand, rng') ->
    hjr_state_to_value interpolate self cand = Ret v ->
    v >= 0 ->
    write_start_state physics cand = Ret p ->
    initialize_episode RandomState randn uniform uniform_n interpolate
      base_initialize_episode (S fuel) self physics rng
    = Ret (base_initialize_episode p, rng', [Candidate cand v]).
Proof.
  intros fuel self physics p rng rng' cand v Hdraw Hv Hge Hwrite.
  unfold initialize_episode.
  rewrite (first_candidate_accepted RandomState randn uniform uniform_n
             interpolate self (model_nv physics) fuel rng rng' cand v Hdraw Hv
             Hge).
  cbn -[write_start_state]. rewrite Hwrite. reflexivity.
Qed.

End MoreSampling.

(** On the two-pole physics the second hinge keeps its angle 0.3 and its
    velocity 0.7 through the initialisation. *)
Lemma initialize_episode_writes_four_entries_witness :
  exists (cand : State) (p : Physics),
    initialize_episode unit zero_randn low_uniform low_uniform_n
      point_interpolate no_hook 1 (constant_task true 1) two_pole_rest tt
    = Ret (no_hook p, tt, [Candidate cand 1])
    /\ qpos p !! 2%nat = Some 0.3
    /\ qvel p !! 2%nat = Some 0.7.
Proof.
  destruct (always_safe_run two_pole_rest)
    as (cand & p & _ & _ & Hinit); [simpl; lia..|].
  exists cand, p. split; [exact Hinit|].
  destruct (initialize_episode_writes_four_entries unit zero_randn low_uniform
              low_uniform_n point_interpolate no_hook 1 (constant_task true 1)
              two_pole_rest (no_hook p) tt tt [Candidate cand 1] Hinit)
    as (s & p' & Hp & _ & _ & _ & _ & _ & _ & Hkeep).
  unfold no_hook in Hp. subst p'.
  destruct (Hkeep 2%nat ltac:(lia)) as [-> ->]. split; reflexivity.
Defined.

(** Swing-up initialisation of the two-pole physics with an everywhere
    negative value function returns. *)
Lemma swing_up_initialisation_returns_witness :
  exists (physics' : Physics) (rng' : unit) (out : list event),
    initialize_episode unit zero_randn low_uniform low_uniform_n
      point_interpolate no_hook 1001 (constant_task true (-1)) two_pole_rest tt
    = Ret (physics', rng', out).
Proof.
  apply (swing_up_initialisation_returns unit zero_randn low_uniform
           low_uniform_n point_interpolate no_hook 1001
           (constant_task true (-1)) two_pole_rest tt);
    [reflexivity|discriminate|simpl; lia..].
Defined.

(** The everywhere-safe swing-up task takes its first candidate on
    [upright_rest]. *)
Lemma first_safe_candidate_is_taken_witness :
  exists (cand : State) (p : Physics),
    write_start_state upright_rest cand = Ret p
    /\ initialize_episode unit zero_randn low_uniform low_uniform_n
         point_interpolate no_hook 7 (constant_task true 1) upright_rest tt
       = Ret (no_hook p, tt, [Candidate cand 1]).
Proof.
  destruct (always_safe_run upright_rest)
    as (cand & p & Hdraw & Hwrite & _); [simpl; lia..|].
  exists cand, p. split; [exact Hwrite|].
  apply (first_safe_candidate_is_taken unit zero_randn low_uniform low_uniform_n
           point_interpolate no_hook 6 (constant_task true 1) upright_rest p
           tt tt cand 1 Hdraw (constant_task_value true 1 cand) ltac:(lra)
           Hwrite).
Defined.

(** ** More on the observation *)

(** What a returning [get_observation] has computed. *)
Lemma get_observation_Ret
    (classifier : utils.CartPoleDeepreach -> State -> bool) (self : Balance)
    (physics physics' : Physics) (obs : list (string * list R)) :
  get_observation classifier self physics = Ret (obs, physics') ->
  exists (position : list R) (unsafe : bool),
    bounded_position physics = Ret position
    /\ is_unsafe classifier self physics = Ret unsafe
    /\ obs = [("position", position); ("velocity", velocity physics)]
    /\ physics'
       = mkPhysics (qpos physics) (qvel physics) (ctrl physics) (xmat physics)
           (<["cart" := if unsafe then red else default_color]>
              (<["pole_1" := if unsafe then red else default_color]>
                 (geom_rgba physics))).
Proof.
  intros H. unfold get_observation in H.
  bind_inv H as position Hposition.
  bind_inv H as unsafe Hunsafe.
  bind_inv H as p Hp.
  injection H as <- <-.
  exists position, unsafe. repeat split; try assumption.
  destruct unsafe; apply recolour_Ret in Hp; exact Hp.
Qed.

Lemma recolour_again (m : gmap string (list R)) (c : list R) :
  <["cart" := c]> (<["pole_1" := c]> (<["cart" := c]> (<["pole_1" := c]> m)))
  = <["cart" := c]> (<["pole_1" := c]> m).
Proof.
  apply map_eq. intros k.
  destruct (decide (k = "cart")) as [->|Hc];
    [rewrite !lookup_insert_eq; reflexivity|].
  destruct (decide (k = "pole_1")) as [->|Hp].
  - rewrite !(lookup_insert_ne _ "cart" "pole_1") by discriminate.
    rewrite !lookup_insert_eq. reflexivity.
  - rewrite !lookup_insert_ne by congruence. reflexivity.
Qed.

(** X12: [get_observation] is idempotent: called again on the physics it
    returned, it returns the same observation and leaves that physics as it
    is. *)
Theorem get_observation_idempotent :
  forall (classifier : utils.CartPoleDeepreach -> State -> bool)
         (self : Balance) (physics physics' : Physics)
         (obs : list (string * list R)),
    get_observation classifier self physics = Ret (obs, physics') ->
    get_observation classifier self physics' = Ret (obs, physics').
Proof.
  intros classifier self physics physics' obs H.
  apply get_observation_Ret in H
    as (position & unsafe & Hposition & Hunsafe & -> & ->).
  unfold get_observation.
  change (bounded_position
            (mkPhysics (qpos physics) (qvel physics) (ctrl physics)
               (xmat physics)
               (<["cart" := if unsafe then red else default_color]>
                  (<["pole_1" := if unsafe then red else default_color]>
                     (geom_rgba physics)))))
    with (bounded_position physics).
  rewrite Hposition. simpl.
  change (is_unsafe classifier self
            (mkPhysics (qpos physics) (qvel physics) (ctrl physics)
               (xmat physics)
               (<["cart" := if unsafe then red else default_color]>
                  (<["pole_1" := if unsafe then red else default_color]>
                     (geom_rgba physics)))))
    with (is_unsafe classifier self physics).
  rewrite Hunsafe. simpl.
  destruct unsafe;
    (rewrite set_geom_rgba_defined;
     [|simpl; rewrite lookup_insert_ne by discriminate;
       rewrite lookup_insert_eq; eauto]);
    simpl;
    (rewrite set_geom_rgba_defined;
     [|simpl; rewrite lookup_insert_ne by discriminate;
       rewrite lookup_insert_eq; eauto]);
    simpl; rewrite recolour_again; reflexivity.
Qed.

(** X13: the observation has the keys ['position'] and ['velocity'], in this
    order; the position starts with the cart position and holds two entries
    per pole body, the velocity is the whole velocity vector. *)
Theorem observation_layout :
  forall (classifier : utils.CartPoleDeepreach -> State -> bool)
         (self : Balance) (physics physics' : Physics)
         (obs : list (string * list R)),
    get_observation classifier self physics = Ret (obs, physics') ->
    exists (cart : R) (poles : list R),
      obs = [("position", cart :: poles); ("velocity", qvel physics)]
      /\ qpos physics !! 0%nat = Some cart
      /\ List.length poles = (2 * (List.length (xmat physics) - 2))%nat
      /\ (forall (i : nat) (m : Mat3),
            xmat physics !! (2 + i)%nat = Some m ->
            poles !! (2 * i)%nat = Some (zz m)
            /\ poles !! (2 * i + 1)%nat = Some (xz m)).
Proof.
  intros classifier self physics physics' obs H.
  apply get_observation_Ret in H
    as (position & unsafe & Hposition & _ & -> & _).
  unfold bounded_position, cart_position in Hposition.
  rewrite joint_qposadr_slider in Hposition. simpl in Hposition.
  bind_inv Hposition as cart Hcart. injection Hposition as <-.
  apply getitem_Ret in Hcart.
  exists cart, (concat (map (fun m => [zz m; xz m]) (drop 2 (xmat physics)))).
  split; [reflexivity|]. split; [exact Hcart|].
  assert (Hgen : forall l : list Mat3,
             List.length (concat (map (fun m => [zz m; xz m]) l))
             = (2 * List.length l)%nat
             /\ forall (i : nat) (m : Mat3),
                  l !! i = Some m ->
                  concat (map (fun m => [zz m; xz m]) l) !! (2 * i)%nat
                  = Some (zz m)
                  /\ concat (map (fun m => [zz m; xz m]) l) !! (2 * i + 1)%nat
                     = Some (xz m)).
  { induction l as [|m0 l [IHlen IHget]]; simpl.
    - split; [reflexivity|]. intros i m Hi. discriminate.
    - split; [rewrite IHlen; lia|].
      intros [|i] m Hi; simpl in Hi.
      + injection Hi as ->. split; reflexivity.
      + destruct (IHget i m Hi) as [Hz Hx].
        replace (S i + (S i + 0) + 1)%nat with (S (S (2 * i + 1))) by lia.
        replace (S i + (S i + 0))%nat with (S (S (2 * i))) by lia.
        split; [exact Hz|exact Hx]. }
  destruct (Hgen (drop 2 (xmat physics))) as [Hlen Hget].
  split; [rewrite Hlen, length_drop; reflexivity|].
  intros i m Hi. apply Hget. rewrite lookup_drop. exact Hi.
Qed.

(** X14: the recolouring that [get_observation] performs does not change
    the reward: dense or sparse, the reward of the returned physics is the
    reward of the physics it was given. *)
Theorem observation_keeps_reward :
  forall (classifier : utils.CartPoleDeepreach -> State -> bool)
         (self : Balance) (physics physics' : Physics)
         (obs : list (string * list R)) (sparse : bool),
    get_observation classifier self physics = Ret (obs, physics') ->
    _get_reward self physics' sparse = _get_reward self physics sparse.
Proof.
  intros classifier self physics physics' obs sparse H.
  apply get_observation_Ret in H as (position & unsafe & _ & _ & _ & ->).
  reflexivity.
Qed.

(** The observation of [upright_rest] under the configured classifier. *)
Lemma upright_rest_observation :
  get_observation utils.is_unsafe (constant_task true 1) upright_rest
  = Ret ([("position", [0; 1; 0]); ("velocity", [0; 0])], upright_rest).
Proof.
  assert (Hpos : bounded_position upright_rest = Ret [0; 1; 0]) by reflexivity.
  assert (Hsafe : is_unsafe utils.is_unsafe (constant_task true 1) upright_rest
                  = Ret false).
  { unfold is_unsafe. simpl. pose proof PI_RGT_0.
    rewrite wrap_angle_id by lra. f_equal. apply configured_classifier_upright. }
  unfold get_observation.
  rewrite (bind_Ret _ _ _ Hpos). cbv beta.
  rewrite (bind_Ret _ _ _ Hsafe). cbv beta iota.
  rewrite set_geom_rgba_defined by (eexists; reflexivity). simpl mbind.
  rewrite set_geom_rgba_defined by (eexists; reflexivity). simpl.
  reflexivity.
Qed.

(** The observation of [hanging_rest]: the classifier calls it unsafe and the
    cart and the pole turn red. *)
Lemma hanging_rest_observation :
  get_observation utils.is_unsafe (constant_task true 1) hanging_rest
  = Ret ([("position", [0; -1; 0]); ("velocity", [0; 0])], hanging_rest_red).
Proof.
  assert (Hpos : bounded_position hanging_rest = Ret [0; -1; 0]) by reflexivity.
  assert (Hunsafe : is_unsafe utils.is_unsafe (constant_task true 1) hanging_rest
                    = Ret true).
  { unfold is_unsafe. simpl. pose proof PI_RGT_0.
    rewrite wrap_angle_PI. f_equal.
    apply configured_classifier_outside_band. lra. }
  unfold get_observation.
  rewrite (bind_Ret _ _ _ Hpos). cbv beta.
  rewrite (bind_Ret _ _ _ Hunsafe). cbv beta iota.
  rewrite set_geom_rgba_defined by (eexists; reflexivity). simpl mbind.
  rewrite set_geom_rgba_defined by (eexists; reflexivity). simpl.
  reflexivity.
Qed.

(** Observing the already observed, red [hanging_rest_red] changes
    nothing. *)
Lemma get_observation_idempotent_witness :
  get_observation utils.is_unsafe (constant_task true 1) hanging_rest_red
  = Ret ([("position", [0; -1; 0]); ("velocity", [0; 0])], hanging_rest_red).
Proof.
  exact (get_observation_idempotent utils.is_unsafe (constant_task true 1)
           hanging_rest hanging_rest_red _ hanging_rest_observation).
Defined.

Lemma observation_layout_witness :
  exists (cart : R) (poles : list R),
    [("position", [0; 1; 0]); ("velocity", [0; 0])]
    = [("position", cart :: poles); ("velocity", qvel upright_rest)]
    /\ List.length poles = 2%nat.
Proof.
  destruct (observation_layout utils.is_unsafe (constant_task true 1)
              upright_rest upright_rest _ upright_rest_observation)
    as (cart & poles & Hobs & _ & Hlen & _).
  exists cart, poles. split; [exact Hobs|exact Hlen].
Defined.

(** Painting [hanging_rest] red leaves its dense reward as it was. *)
Lemma observation_keeps_reward_witness :
  _get_reward (constant_task true 1) hanging_rest_red false
  = _get_reward (constant_task true 1) hanging_rest false.
Proof.
  exact (observation_keeps_reward utils.is_unsafe (constant_task true 1)
           hanging_rest hanging_rest_red _ false hanging_rest_observation).
Defined.

(** ** More on the reward *)

Lemma tolerance_args_zero_margin (lower upper v : R) (s : rewards.sigmoid) :
  lower <= upper -> rewards.tolerance_args lower upper 0.0 v s = Ret tt.
Proof.
  intros Hle. unfold rewards.tolerance_args.
  rewrite decide_False by lra. rewrite decide_False by lra.
  rewrite decide_True by lra. reflexivity.
Qed.

Lemma tolerance_at_zero_margin (lower upper v : R) (s : rewards.sigmoid) (x : R) :
  rewards.tolerance_at lower upper 0.0 v s x
  = if decide (lower <= x <= upper) then 1 else 0.
Proof.
  unfold rewards.tolerance_at. rewrite decide_True by lra.
  case_decide as Hin.
  - destruct Hin. rewrite !bool_decide_eq_true_2 by assumption. reflexivity.
  - destruct (bool_decide (lower <= x)) eqn:El;
      destruct (bool_decide (x <= upper)) eqn:Eu; try reflexivity.
    apply bool_decide_eq_true_1 in El, Eu. tauto.
Qed.

Lemma Rprod_in_bounds (lower upper : R) (xs : list R) :
  Rprod (map (fun x => if decide (lower <= x <= upper) then 1 else 0) xs)
  = if decide (Forall (fun x => lower <= x <= upper) xs) then 1 else 0.
Proof.
  induction xs as [|x xs IH].
  - reflexivity.
  - change (Rprod (map (fun x => if decide (lower <= x <= upper) then 1 else 0)
                     (x :: xs)))
      with ((if decide (lower <= x <= upper) then 1 else 0)
            * Rprod (map (fun x => if decide (lower <= x <= upper) then 1 else 0)
                       xs)).
    rewrite IH.
    destruct (decide (lower <= x <= upper)) as [Hx|Hx];
      destruct (decide (Forall (fun x => lower <= x <= upper) xs)) as [Hxs|Hxs];
      destruct (decide (Forall (fun x => lower <= x <= upper) (x :: xs)))
        as [Hall|Hall];
      try ring;
      try (exfalso; apply Forall_cons in Hall as [? ?]; tauto);
      exfalso; apply Hall; constructor; assumption.
Qed.

(** X15: the sparse reward is an indicator: 1 when the cart lies within
    [-0.25, 0.25] and the cosine of every pole within [0.995, 1], and 0
    otherwise. *)
Theorem sparse_reward_is_indicator :
  forall (self : Balance) (physics : Physics) (pos : R),
    cart_position physics = Ret pos ->
    _get_reward self physics true
    = Ret (if decide (-0.25 <= pos <= 0.25
                      /\ Forall (fun c => 0.995 <= c <= 1)
                           (pole_angle_cosine physics))
           then 1 else 0).
Proof.
  intros self physics pos Hpos. unfold _get_reward.
  rewrite Hpos. simpl mbind.
  unfold rewards.tolerance_scalar, rewards.tolerance, _CART_RANGE,
    _ANGLE_COSINE_RANGE. simpl fst. simpl snd.
  rewrite !tolerance_args_zero_margin by lra. simpl mbind.
  rewrite tolerance_at_zero_margin.
  rewrite (map_ext _ (fun x => if decide (0.995 <= x <= 1) then 1 else 0))
    by (intros c; apply tolerance_at_zero_margin).
  rewrite Rprod_in_bounds. f_equal.
  repeat case_decide; try ring; tauto.
Qed.

(** The upright centred cart-pole earns the sparse reward 1. *)
Lemma sparse_reward_is_indicator_witness :
  _get_reward (constant_task true 1) upright_rest true = Ret 1.
Proof.
  rewrite (sparse_reward_is_indicator (constant_task true 1) upright_rest 0
             eq_refl).
  rewrite decide_True; [reflexivity|].
  split; [lra|]. unfold pole_angle_cosine, upright_rest, identity_mat. simpl.
  constructor; [simpl; lra|constructor].
Defined.

Lemma Rsum_zero_iff (l : list R) :
  Forall (fun c => 0 <= c) l -> (Rsum l = 0 <-> Forall (fun c => c = 0) l).
Proof.
  induction 1 as [|c l Hc Hl IH].
  - split; [constructor|reflexivity].
  - change (Rsum (c :: l)) with (c + Rsum l).
    assert (Hs : 0 <= Rsum l).
    { clear IH. induction Hl as [|d l Hd _ IHl]; [simpl; lra|].
      change (Rsum (d :: l)) with (d + Rsum l). lra. }
    split.
    + intros Hsum. constructor; [lra|]. apply IH. lra.
    + intros Hall. apply Forall_cons in Hall as [-> Hall].
      apply IH in Hall. lra.
Qed.

Lemma mean_zero_iff (l : list R) (m : R) :
  Forall (fun c => 0 <= c) l -> mean l = Ret m ->
  (m = 0 <-> Forall (fun c => c = 0) l).
Proof.
  intros Hl Hm. destruct l as [|c l]; [discriminate|].
  assert (Hn : 0 < INR (List.length (c :: l))) by (apply lt_0_INR; simpl; lia).
  assert (Heq : m = Rsum (c :: l) / INR (List.length (c :: l))).
  { unfold mean in Hm. injection Hm as <-. reflexivity. }
  rewrite <- (Rsum_zero_iff _ Hl). rewrite Heq. split.
  - intros Hz. apply (Rmult_eq_compat_r (INR (List.length (c :: l)))) in Hz.
    unfold Rdiv in Hz. rewrite Rmult_assoc, Rinv_l in Hz by lra. lra.
  - intros ->. unfold Rdiv. ring.
Qed.

(** X16: the dense reward is at least one fifth of the uprightness mean, and
    it is zero exactly when every pole hangs straight down (cosine -1); on
    every other physics state with cosines in [-1, 1] it is positive. *)
Theorem dense_reward_zero_iff_hanging :
  forall (self : Balance) (physics : Physics) (r : R),
    cosines_in_range physics ->
    _get_reward self physics false = Ret r ->
    exists f : shaping,
      dense_shaping physics = Ret f
      /\ upright_mean f / 5 <= r
      /\ (r = 0 <-> Forall (fun c => c = -1) (pole_angle_cosine physics))
      /\ (r <> 0 -> 0 < r).
Proof.
  intros self physics r Hcos Hr. unfold _get_reward in Hr.
  bind_inv Hr as f Hf. injection Hr as <-.
  pose proof (dense_shaping_range physics f Hcos Hf) as (Hu & Hc & Hs & Hv).
  exists f. split; [exact Hf|].
  assert (Hsv : 2 / 5 <= small_control f * small_velocity f) by nra.
  assert (Hsvc : 1 / 5 <= small_control f * small_velocity f * centered f) by nra.
  assert (Hlow : upright_mean f / 5
                 <= upright_mean f * small_control f * small_velocity f
                    * centered f) by nra.
  split; [exact Hlow|].
  assert (Hzero : upright_mean f = 0
                  <-> Forall (fun c => c = -1) (pole_angle_cosine physics)).
  { rewrite dense_shaping_unfold in Hf.
    bind_inv Hf as pos Hpos. bind_inv Hf as c Hc'. bind_inv Hf as v Hv'.
    bind_inv Hf as u Hmean. injection Hf as <-. simpl.
    assert (Hnonneg : Forall (fun c => 0 <= c)
                        (map (fun c => (c + 1) / 2) (pole_angle_cosine physics))).
    { apply Forall_fmap. eapply Forall_impl; [exact Hcos|].
      simpl. intros x Hx. lra. }
    rewrite (mean_zero_iff _ u Hnonneg Hmean).
    rewrite Forall_fmap. apply Forall_iff. intros x. simpl. split; intros; lra. }
  split.
  - rewrite <- Hzero. split; [intros Hr; lra|intros ->; ring].
  - intros Hne. assert (upright_mean f <> 0) by (intros E; apply Hne; rewrite E; ring).
    lra.
Qed.

(** The upright cart-pole has a positive dense reward; its pole does not
    hang. *)
Lemma dense_reward_zero_iff_hanging_witness :
  exists r : R,
    _get_reward (constant_task true 1) upright_rest false = Ret r /\ 0 < r.
Proof.
  assert (Hcos : cosines_in_range upright_rest).
  { unfold cosines_in_range, pole_angle_cosine, upright_rest, identity_mat.
    simpl. constructor; [simpl; lra|constructor]. }
  destruct (dense_shaping_defined upright_rest 0) as [f Hf];
    [reflexivity|discriminate..|].
  assert (Hr : _get_reward (constant_task true 1) upright_rest false
               = Ret (upright_mean f * small_control f * small_velocity f
                      * centered f)).
  { unfold _get_reward. rewrite Hf. reflexivity. }
  eexists. split; [exact Hr|].
  destruct (dense_reward_zero_iff_hanging (constant_task true 1) upright_rest _
              Hcos Hr) as (f' & _ & _ & Hiff & Hpos).
  apply Hpos. intros Hz. apply Hiff in Hz.
  unfold pole_angle_cosine, upright_rest, identity_mat in Hz. simpl in Hz.
  apply Forall_cons in Hz as [Hz _]. simpl in Hz. lra.
Defined.

Lemma tol_quadratic_closed_form (u : R) :
  tol_quadratic u = if decide (Rabs u < 1) then 1 - u ^ 2 else 0.
Proof.
  unfold tol_quadratic, rewards.tolerance_at, rewards._sigmoids.
  rewrite decide_False by lra.
  replace (1 - 0) with 1 by ring. rewrite sqrt_1.
  destruct (bool_decide (0.0 <= u)) eqn:Elo;
    destruct (bool_decide (u <= 0.0)) eqn:Ehi; simpl.
  - apply bool_decide_eq_true_1 in Elo, Ehi.
    assert (u = 0) as -> by lra.
    rewrite Rabs_R0, decide_True by lra. ring.
  - apply bool_decide_eq_true_1 in Elo.
    rewrite !(decide_False (P := u < 0.0)) by lra.
    replace ((u - 0.0) / 1 * 1) with u by lra. reflexivity.
  - apply bool_decide_eq_false_1 in Elo.
    rewrite !(decide_True (P := u < 0.0)) by lra.
    replace ((0.0 - u) / 1 * 1) with (- u) by lra.
    rewrite Rabs_Ropp. repeat case_decide; try lra; ring.
  - apply bool_decide_eq_false_1 in Elo, Ehi. lra.
Qed.

Lemma ln_tenth_negative : ln 0.1 < 0.
Proof. rewrite <- ln_1. apply ln_increasing; lra. Qed.

Lemma tol_gaussian_closed_form (margin x : R) :
  0 < margin -> tol_gaussian margin x = exp (ln 0.1 * (x / margin) ^ 2).
Proof.
  intros Hm. pose proof ln_tenth_negative as Hln.
  unfold tol_gaussian, rewards.tolerance_at, rewards._sigmoids,
    rewards._DEFAULT_VALUE_AT_MARGIN.
  rewrite decide_False by lra.
  assert (Hscale : sqrt (-2 * ln 0.1) ^ 2 = -2 * ln 0.1)
    by (apply pow2_sqrt; lra).
  assert (Hexp : forall d : R,
             d ^ 2 = (x / margin) ^ 2 ->
             exp (-0.5 * (d * sqrt (-2 * ln 0.1)) ^ 2)
             = exp (ln 0.1 * (x / margin) ^ 2)).
  { intros d Hd. f_equal. rewrite Rpow_mult_distr, Hscale, Hd.
    replace (-0.5) with (- (1 / 2)) by lra. field; lra. }
  destruct (bool_decide (0.0 <= x)) eqn:Elo;
    destruct (bool_decide (x <= 0.0)) eqn:Ehi; simpl.
  - apply bool_decide_eq_true_1 in Elo, Ehi.
    assert (x = 0) as -> by lra.
    replace (ln 0.1 * (0 / margin * (0 / margin * 1))) with 0
      by (field; lra).
    rewrite exp_0. reflexivity.
  - apply bool_decide_eq_true_1 in Elo.
    rewrite (decide_False (P := x < 0.0)) by lra.
    apply Hexp. replace (x - 0.0) with x by lra. reflexivity.
  - apply bool_decide_eq_false_1 in Elo.
    rewrite (decide_True (P := x < 0.0)) by lra.
    apply Hexp. replace (0.0 - x) with (- x) by lra. field; lra.
  - apply bool_decide_eq_false_1 in Elo, Ehi. lra.
Qed.

(** X17: the control-effort factor of the dense reward has a closed form in
    the first control u: it is 1 - u^2/5 while |u| < 1 and 4/5 from |u| = 1
    on. *)
Theorem control_effort_factor_closed_form :
  forall (physics : Physics) (f : shaping) (u : R),
    dense_shaping physics = Ret f ->
    control physics !! 0%nat = Some u ->
    small_control f = if decide (Rabs u < 1) then 1 - u ^ 2 / 5 else 4 / 5.
Proof.
  intros physics f u Hf Hu. rewrite dense_shaping_unfold in Hf.
  bind_inv Hf as pos Hpos. bind_inv Hf as c Hc. bind_inv Hf as v Hv.
  bind_inv Hf as m Hm. injection Hf as <-. simpl.
  apply getitem_Ret in Hc. rewrite list_lookup_fmap, Hu in Hc.
  injection Hc as <-. rewrite tol_quadratic_closed_form.
  case_decide; field.
Qed.

(** On [upright_rest] the control is 0 and the factor is 1 - 0^2/5. *)
Lemma control_effort_factor_closed_form_witness :
  exists f : shaping,
    dense_shaping upright_rest = Ret f
    /\ small_control f = 1 - 0 ^ 2 / 5.
Proof.
  destruct (dense_shaping_defined upright_rest 0) as [f Hf];
    [reflexivity|discriminate..|].
  exists f. split; [exact Hf|].
  rewrite (control_effort_factor_closed_form upright_rest f 0 Hf eq_refl).
  rewrite Rabs_R0, decide_True by lra. reflexivity.
Defined.

(** X18: the centering factor of the dense reward has a closed form in the
    cart position x: (1 + 0.1^((x/2)^2)) / 2, written with [exp] and [ln];
    it depends on |x| only and equals 0.55 when the cart is 2 away from the
    centre. *)
Theorem centering_factor_closed_form :
  forall (physics : Physics) (f : shaping) (pos : R),
    dense_shaping physics = Ret f ->
    cart_position physics = Ret pos ->
    centered f = (1 + exp (ln 0.1 * (pos / 2) ^ 2)) / 2
    /\ centered f = (1 + exp (ln 0.1 * (Rabs pos / 2) ^ 2)) / 2
    /\ (Rabs pos = 2 -> centered f = 0.55).
Proof.
  intros physics f pos Hf Hpos. rewrite dense_shaping_unfold, Hpos in Hf.
  simpl in Hf.
  bind_inv Hf as c Hc. bind_inv Hf as v Hv. bind_inv Hf as m Hm.
  injection Hf as <-. cbn [centered].
  rewrite tol_gaussian_closed_form by lra.
  assert (Habs : (Rabs pos / 2) ^ 2 = (pos / 2) ^ 2).
  { unfold Rdiv. rewrite !Rpow_mult_distr, pow2_abs. reflexivity. }
  split; [reflexivity|]. split; [rewrite Habs; reflexivity|].
  intros H2. rewrite <- Habs, H2.
  replace (ln 0.1 * (2 / 2) ^ 2) with (ln 0.1) by field.
  rewrite exp_ln by lra. lra.
Qed.

(** On [upright_rest] the cart is at 0 and the centering factor is
    (1 + 0.1^0) / 2. *)
Lemma centering_factor_closed_form_witness :
  exists f : shaping,
    dense_shaping upright_rest = Ret f
    /\ centered f = (1 + exp (ln 0.1 * (0 / 2) ^ 2)) / 2.
Proof.
  destruct (dense_shaping_defined upright_rest 0) as [f Hf];
    [reflexivity|discriminate..|].
  exists f. split; [exact Hf|].
  exact (proj1 (centering_factor_closed_form upright_rest f 0 Hf eq_refl)).
Defined.

(** ** The factories *)

Lemma Balance_init_flags
    (hj_solve : utils.CartPoleHJR -> Grid -> list R -> list R -> ValueArray)
    (boundary_fn : utils.CartPoleHJR -> Grid -> list R)
    (swing_up sparse swing_up' sparse' : bool) (cache cache' : option ValueArray)
    (self : Balance) (out : list event) :
  Balance_init hj_solve boundary_fn swing_up sparse cache
  = Ret (self, cache', out) ->
  _swing_up self = swing_up /\ _sparse self = sparse
  /\ Balance_init hj_solve boundary_fn swing_up' sparse' cache
     = Ret (with_flags self swing_up' sparse', cache', out).
Proof.
  unfold Balance_init. rewrite !setup_hj_reachability_unfold. simpl. intros H.
  bind_inv H as target Ht. bind_inv H as means Hm. bind_inv H as d Hd.
  injection H as <- <- <-. simpl.
  split; [reflexivity|]. split; [reflexivity|].
  rewrite Ht. simpl. rewrite Hm. simpl. rewrite Hd. reflexivity.
Qed.

(** X19: the six factories build their tasks through one construction.
    When [balance] returns a task (neither swing-up nor sparse), every other
    factory returns, from the same cache file, the same task up to its two
    mode flags, with the same file afterwards and the same printed
    diagnostic: the unsafe region, the classifier, the grid and the value
    function do not depend on the mode or on the number of poles. *)
Theorem factories_differ_in_flags_only :
  forall (hj_solve : utils.CartPoleHJR -> Grid -> list R -> list R -> ValueArray)
         (boundary_fn : utils.CartPoleHJR -> Grid -> list R)
         (cache cache' : option ValueArray) (self : Balance) (out : list event),
    balance hj_solve boundary_fn cache = Ret (self, cache', out) ->
    _swing_up self = false
    /\ _sparse self = false
    /\ balance_sparse hj_solve boundary_fn cache
       = Ret (with_flags self false true, cache', out)
    /\ swingup hj_solve boundary_fn cache
       = Ret (with_flags self true false, cache', out)
    /\ swingup_sparse hj_solve boundary_fn cache
       = Ret (with_flags self true true, cache', out)
    /\ two_poles hj_solve boundary_fn cache
       = Ret (with_flags self true false, cache', out)
    /\ (forall (num_poles : nat) (sparse : bool),
          three_poles hj_solve boundary_fn num_poles sparse cache
          = Ret (with_flags self true sparse, cache', out)).
Proof.
  intros hj_solve boundary_fn cache cache' self out H.
  unfold balance in H.
  repeat split;
    try (intros num_poles sparse);
    try exact (proj1 (Balance_init_flags _ _ _ _ true true _ _ _ _ H));
    try exact (proj1 (proj2 (Balance_init_flags _ _ _ _ true true _ _ _ _ H)));
    unfold balance_sparse, swingup, swingup_sparse, two_poles, three_poles;
    exact (proj2 (proj2 (Balance_init_flags _ _ _ _ _ _ _ _ _ _ H))).
Qed.

(** From the cache holding two constant snapshots, [balance] and
    [three_poles] with four poles build tasks that differ in the swing-up
    flag only. *)
Lemma factories_differ_in_flags_only_witness :
  exists (self : Balance) (out : list event),
    balance (solver_returning (mkValues [] [])) (fun _ _ => [])
      (Some (constant_values 1))
    = Ret (self, Some (constant_values 1), out)
    /\ three_poles (solver_returning (mkValues [] [])) (fun _ _ => []) 4 false
         (Some (constant_values 1))
       = Ret (with_flags self true false, Some (constant_values 1), out).
Proof.
  destruct (setup_hj_reachability_Ret (solver_returning (mkValues [] []))
              (fun _ _ => []) false false (Some (constant_values 1)))
    as (target & d & Hsetup & _); [simpl; lia..|].
  eexists _, _. split; [exact Hsetup|].
  destruct (factories_differ_in_flags_only _ _ _ _ _ _ Hsetup)
    as (_ & _ & _ & _ & _ & _ & Hthree).
  exact (Hthree 4%nat false).
Defined.
